(** * libprogbase event system: a shallow embedding of [src/events/events.c]

    The file embeds the event/handler lifecycle, the queue-and-broadcast
    dispatch and the frame-paced main loop of [events.c], and proves the
    properties of the specification about them.

    Conventions of the embedding.
    - Pointers and function pointers are integers ([Z]); [NULL] is [0].
    - [malloc] hands out fresh addresses from a bump counter ([brk]) and is
      assumed to succeed.
    - An [Event] is immutable once built, so the queue holds the records
      themselves, each tagged with its own address ([self]).
    - An [EventHandler] is mutable (its reference count) and shared, so the
      records live in a store ([heap]) indexed by address; touching an
      address that holds no live record is undefined behaviour in C and a
      [Fault] here.
    - Everything the outside world can observe (callbacks invoked, user
      destructors called, records freed, sleeps requested) is appended to a
      chronological [trace].
    - User destructors are opaque: a call is recorded, and a destructor is
      taken not to call back into the event system.
    - The three [while] loops that run user callbacks need not terminate
      and take fuel. *)

From Stdlib Require Import ZArith Floats.
From stdpp Require Import gmap list.

Local Open Scope Z_scope.

Abbreviation NULL := 0%Z (only parsing).

(** ** Data model *)

(** [struct Event] (declared in the absent [progbase/events.h]; the fields
    are the ones [Event_new] assigns), with the address of the record. *)
Record Event := {
  self : Z;
  sender : Z;
  type : Z;
  data : Z;
  destructor : Z
}.

(** [struct EventHandler]: the fields [EventHandler_new] assigns.  The
    declaration of [_refCount] is in the absent header; the specification
    calls it an integer, and it is kept as an unbounded one here. *)
Record EventHandler := {
  eh_data : Z;
  eh_destructor : Z;
  handler : Z;
  _refCount : Z
}.

Inductive EventSystemAction :=
| EventSystemActionContinue
| EventSystemActionExit.

Global Instance EventSystemAction_eq_dec : EqDecision EventSystemAction.
Proof. solve_decision. Defined.

(** [struct EventHandlerEnumerator].  Its [handlers] field is a pointer to
    the list of the event system, not a copy: the embedding reads the live
    list of the state at every step and keeps only the cursor. *)
Record EventHandlerEnumerator := { index : nat }.

(** What the outside world observes. *)
Inductive Obs :=
| OEventNew (e : Event)                 (* Event_new returned e *)
| OEventDtor (e : Event)                (* e->destructor(e->data) in Event_free *)
| OEventFree (e : Event)                (* free(e) in Event_free *)
| OHandlerDtor (h dtor payload : Z)     (* h->destructor(h->data) in EventHandler_decref *)
| OHandlerFree (h : Z)                  (* free(h) in EventHandler_decref *)
| OInvoke (h fn : Z) (e : Event)        (* h->handler(h, e) *)
| OSleep (ms : float).                  (* sleepMillis(ms) *)

(** Client code.  A callback is a program over the public interface of
    [events.h]; it ends by leaving the client's own memory in a new state.
    Events are built and queued in one step, as every call site of
    [events.c] does ([EventSystem_emit(Event_new(...))]). *)
Inductive Prog (U : Type) : Type :=
| Return (u : U)
| CallEmit (sender type data dest : Z) (k : Prog U)
| CallRaiseEvent (sender type data dest : Z) (k : Prog U)
| CallHandlerNew (data dest fn : Z) (k : Z -> Prog U)
| CallIncref (h : Z) (k : Prog U)
| CallDecref (h : Z) (k : Prog U)
| CallAddHandler (h : Z) (k : Prog U)
| CallRemoveHandler (h : Z) (k : Prog U)
| CallExit (k : Prog U).

Arguments Return {U} u.
Arguments CallEmit {U} sender type data dest k.
Arguments CallRaiseEvent {U} sender type data dest k.
Arguments CallHandlerNew {U} data dest fn k.
Arguments CallIncref {U} h k.
Arguments CallDecref {U} h k.
Arguments CallAddHandler {U} h k.
Arguments CallRemoveHandler {U} h k.
Arguments CallExit {U} k.

(** The parts of the program that are not in [events.c]: the public event
    tags of [events.h], the clock of [clock.h], and the client (its memory
    and what each callback does when called with itself, an event and the
    elapsed time the [Update] payload points to). *)
Class World := {
  StartEventTypeId : Z;
  UpdateEventTypeId : Z;
  ExitEventTypeId : Z;
  Clock : Type;
  Clock_now : nat -> Clock;                     (* the n-th reading *)
  Clock_diffMillis : Clock -> Clock -> float;
  elapsedMillis_addr : Z;                       (* &elapsedMillis *)
  U : Type;
  callback : Z -> Z -> Event -> float -> U -> Prog U
}.

(** Outcomes: a value, fuel exhausted, or undefined behaviour. *)
Inductive fault := BadPointer | AssertionFailed.

Inductive result (A : Type) : Type :=
| Done (a : A)
| OutOfFuel
| Fault (f : fault).

Arguments Done {A} a.
Arguments OutOfFuel {A}.
Arguments Fault {A} f.

Definition bind {A B} (r : result A) (k : A -> result B) : result B :=
  match r with
  | Done a => k a
  | OutOfFuel => OutOfFuel
  | Fault f => Fault f
  end.

Notation "'let*' x := r 'in' k" := (bind r (fun x => k))
  (at level 10, x pattern, r at level 100, k at level 200).

(** ** External collaborators *)

(** Modelled from the spec: the generic list of
    [progbase/collections/list.h] is an ordered mutable sequence with
    append, get-by-index, count and remove-by-identity (the first element
    identical to the reference is dropped, nothing happens when there is
    none). *)
Definition List_count (l : list Z) : nat := length l.
Definition List_get (l : list Z) (i : nat) : Z :=
  match l !! i with Some x => x | None => NULL end.
Definition List_add (l : list Z) (x : Z) : list Z := l ++ [x].
Fixpoint List_remove (l : list Z) (x : Z) : list Z :=
  match l with
  | [] => []
  | y :: l' => if decide (y = x) then l' else y :: List_remove l' x
  end.

(** Modelled from the spec: the generic queue of
    [progbase/collections/queue.h] is a FIFO with enqueue at the tail,
    dequeue at the head, and size. *)
Definition Queue_size (q : list Event) : nat := length q.
Definition Queue_enqueue (q : list Event) (e : Event) : list Event := q ++ [e].
Definition Queue_dequeue (q : list Event) : option Event * list Event :=
  match q with
  | [] => (None, [])
  | e :: q' => (Some e, q')
  end.

Section EventSystem.
Context `{W : World}.

(** ** Program state *)

(** [g_eventSystem] ([handlers], [events]) between [EventSystem_init] and
    [EventSystem_cleanup], the store of live handler records, the
    allocator, the number of clock readings taken, the loop's local
    [elapsedMillis] (its address escapes through the [Update] payload),
    the client's memory, and the observations so far. *)
Record State := {
  handlers : list Z;
  events : list Event;
  heap : gmap Z EventHandler;
  brk : Z;
  ticks : nat;
  elapsedMillis : float;
  user : U;
  trace : list Obs
}.

Definition set_handlers (l : list Z) (s : State) : State :=
  {| handlers := l; events := events s; heap := heap s; brk := brk s;
     ticks := ticks s; elapsedMillis := elapsedMillis s; user := user s;
     trace := trace s |}.
Definition set_events (q : list Event) (s : State) : State :=
  {| handlers := handlers s; events := q; heap := heap s; brk := brk s;
     ticks := ticks s; elapsedMillis := elapsedMillis s; user := user s;
     trace := trace s |}.
Definition set_heap (m : gmap Z EventHandler) (s : State) : State :=
  {| handlers := handlers s; events := events s; heap := m; brk := brk s;
     ticks := ticks s; elapsedMillis := elapsedMillis s; user := user s;
     trace := trace s |}.
Definition set_brk (b : Z) (s : State) : State :=
  {| handlers := handlers s; events := events s; heap := heap s; brk := b;
     ticks := ticks s; elapsedMillis := elapsedMillis s; user := user s;
     trace := trace s |}.
Definition set_ticks (n : nat) (s : State) : State :=
  {| handlers := handlers s; events := events s; heap := heap s; brk := brk s;
     ticks := n; elapsedMillis := elapsedMillis s; user := user s;
     trace := trace s |}.
Definition set_elapsedMillis (x : float) (s : State) : State :=
  {| handlers := handlers s; events := events s; heap := heap s; brk := brk s;
     ticks := ticks s; elapsedMillis := x; user := user s;
     trace := trace s |}.
Definition set_user (u : U) (s : State) : State :=
  {| handlers := handlers s; events := events s; heap := heap s; brk := brk s;
     ticks := ticks s; elapsedMillis := elapsedMillis s; user := u;
     trace := trace s |}.
Definition log (o : Obs) (s : State) : State :=
  {| handlers := handlers s; events := events s; heap := heap s; brk := brk s;
     ticks := ticks s; elapsedMillis := elapsedMillis s; user := user s;
     trace := trace s ++ [o] |}.

Definition malloc (s : State) : Z * State := (brk s, set_brk (brk s + 1) s).

Definition now (s : State) : Clock * State :=
  (Clock_now (ticks s), set_ticks (S (ticks s)) s).

Definition sleepMillis (ms : float) (s : State) : State := log (OSleep ms) s.

(** ** Event *)

Definition Event_new (sender type data dest : Z) (s : State) : Event * State :=
  let '(a, s1) := malloc s in
  let e := {| self := a; sender := sender; type := type; data := data;
              destructor := dest |} in
  (e, log (OEventNew e) s1).

Definition Event_free (e : Event) (s : State) : State :=
  let s1 := if negb (destructor e =? NULL) && negb (data e =? NULL)
            then log (OEventDtor e) s else s in
  log (OEventFree e) s1.

(** ** EventHandler *)

Definition EventHandler_new (data dest fn : Z) (s : State) : result (Z * State) :=
  if negb (data =? NULL) && (dest =? NULL) then Fault AssertionFailed
  else
    let '(a, s1) := malloc s in
    let h := {| eh_data := data; eh_destructor := dest; handler := fn;
                _refCount := 1 |} in
    Done (a, set_heap (<[a := h]> (heap s1)) s1).

Definition with_refCount (n : Z) (h : EventHandler) : EventHandler :=
  {| eh_data := eh_data h; eh_destructor := eh_destructor h;
     handler := handler h; _refCount := n |}.

Definition EventHandler_incref (p : Z) (s : State) : result State :=
  match heap s !! p with
  | None => Fault BadPointer
  | Some h => Done (set_heap (<[p := with_refCount (_refCount h + 1) h]> (heap s)) s)
  end.

Definition EventHandler_decref (p : Z) (s : State) : result State :=
  match heap s !! p with
  | None => Fault BadPointer
  | Some h =>
      let n := _refCount h - 1 in
      if 0 =? n then
        let s1 := if negb (eh_destructor h =? NULL) && negb (eh_data h =? NULL)
                  then log (OHandlerDtor p (eh_destructor h) (eh_data h)) s
                  else s in
        Done (set_heap (delete p (heap s1)) (log (OHandlerFree p) s1))
      else Done (set_heap (<[p := with_refCount n h]> (heap s)) s)
  end.

(** ** EventSystem: the operations of the public interface *)

Definition EventSystem_addHandler (h : Z) (s : State) : State :=
  set_handlers (List_add (handlers s) h) s.

Definition EventSystem_raiseEvent (e : Event) (s : State) : State :=
  set_events (Queue_enqueue (events s) e) s.

Definition EventSystem_emit (e : Event) (s : State) : State :=
  set_events (Queue_enqueue (events s) e) s.

Definition RemoveHandlerEventTypeId : Z := ExitEventTypeId + 1.
Definition BreakLoopEventTypeId : Z := ExitEventTypeId + 2.

Definition EventSystem_removeHandler (h : Z) (s : State) : State :=
  let '(e, s1) := Event_new NULL RemoveHandlerEventTypeId h NULL s in
  EventSystem_emit e s1.

Definition EventSystem_exit (s : State) : State :=
  let '(e, s1) := Event_new NULL BreakLoopEventTypeId NULL NULL s in
  EventSystem_emit e s1.

Definition EventSystem_init (s : State) : State :=
  set_events [] (set_handlers [] s).

(** Running a callback body: each call of the client is the C function of
    the same name. *)
Fixpoint exec (p : Prog U) (s : State) : result State :=
  match p with
  | Return u => Done (set_user u s)
  | CallEmit sd ty d dt k =>
      let '(e, s1) := Event_new sd ty d dt s in exec k (EventSystem_emit e s1)
  | CallRaiseEvent sd ty d dt k =>
      let '(e, s1) := Event_new sd ty d dt s in exec k (EventSystem_raiseEvent e s1)
  | CallHandlerNew d dt fn k =>
      let* (a, s1) := EventHandler_new d dt fn s in exec (k a) s1
  | CallIncref h k => let* s1 := EventHandler_incref h s in exec k s1
  | CallDecref h k => let* s1 := EventHandler_decref h s in exec k s1
  | CallAddHandler h k => exec k (EventSystem_addHandler h s)
  | CallRemoveHandler h k => exec k (EventSystem_removeHandler h s)
  | CallExit k => exec k (EventSystem_exit s)
  end.

Definition EventHandler_handleEvent (p : Z) (e : Event) (s : State) : result State :=
  match heap s !! p with
  | None => Fault BadPointer
  | Some h =>
      if handler h =? NULL then Fault BadPointer
      else exec (callback (handler h) p e (elapsedMillis s) (user s))
                (log (OInvoke p (handler h) e) s)
  end.

(** ** EventHandlerEnumerator and the internals of the event system *)

Definition EventHandlerEnumerator_new : EventHandlerEnumerator := {| index := 0 |}.

Definition EventHandlerEnumerator_getNextHandler
    (en : EventHandlerEnumerator) (s : State) : Z * EventHandlerEnumerator :=
  if (List_count (handlers s) <=? index en)%nat then (NULL, en)
  else (List_get (handlers s) (index en), {| index := S (index en) |}).

Definition EventSystem_getNextEvent (s : State) : option Event * State :=
  if (Queue_size (events s) =? 0)%nat then (None, s)
  else let '(e, q) := Queue_dequeue (events s) in (e, set_events q s).

Definition EventSystem_getHandlers : EventHandlerEnumerator :=
  EventHandlerEnumerator_new.

Definition EventSystem_handleEvent (e : Event) (s : State)
    : result (EventSystemAction * State) :=
  if type e =? BreakLoopEventTypeId then Done (EventSystemActionExit, s)
  else if type e =? RemoveHandlerEventTypeId then
    let h := data e in
    if negb (h =? NULL) then
      let* s2 := EventHandler_decref h (set_handlers (List_remove (handlers s) h) s) in
      Done (EventSystemActionContinue, s2)
    else Done (EventSystemActionContinue, s)
  else Done (EventSystemActionContinue, s).

(** The innermost loop of [EventSystem_loop]: the walk of the enumerator. *)
Fixpoint broadcast (fuel : nat) (en : EventHandlerEnumerator) (e : Event)
    (s : State) : result State :=
  match fuel with
  | O => OutOfFuel
  | S fuel' =>
      let '(h, en') := EventHandlerEnumerator_getNextHandler en s in
      if h =? NULL then Done s
      else let* s1 := EventHandler_handleEvent h e s in broadcast fuel' en' e s1
  end.

(** One turn of the drain loop, after the event was taken from the queue. *)
Definition dispatch (fuel : nat) (e : Event) (isRunning : bool) (s : State)
    : result (bool * State) :=
  let* (act, s1) := EventSystem_handleEvent e s in
  if decide (act = EventSystemActionExit) then
    let '(x, s2) := Event_new NULL ExitEventTypeId NULL NULL s1 in
    Done (false, Event_free e (EventSystem_emit x s2))
  else
    let* s2 := broadcast fuel EventSystem_getHandlers e s1 in
    Done (isRunning, Event_free e s2).

(** The drain loop: [while ((event = EventSystem_getNextEvent()) != NULL)]. *)
Fixpoint drain (fuel : nat) (isRunning : bool) (s : State) : result (bool * State) :=
  match fuel with
  | O => OutOfFuel
  | S fuel' =>
      match EventSystem_getNextEvent s with
      | (None, s1) => Done (isRunning, s1)
      | (Some e, s1) =>
          let* (r, s2) := dispatch fuel' e isRunning s1 in drain fuel' r s2
      end
  end.

Definition FPS : Z := 30.

(** [const double millisPerFrame = 1000 / FPS;]: both operands are [int],
    the quotient is taken in [int] and then converted. *)
Definition millisPerFrame : float :=
  PrimFloat.of_uint63 (Uint63.of_Z (Z.quot 1000 FPS)).

(** The end of a frame: measure, and sleep when under the budget. *)
Definition pace (current : Clock) (s : State) : State :=
  let '(t, s1) := now s in
  let millis := Clock_diffMillis t current in
  if PrimFloat.ltb millis millisPerFrame
  then sleepMillis (PrimFloat.sub millisPerFrame millis) s1
  else s1.

(** The frames: [while (isRunning)]. *)
Fixpoint frames (fuel : nat) (lastTicks : Clock) (s : State) : result State :=
  match fuel with
  | O => OutOfFuel
  | S fuel' =>
      let '(current, s1) := now s in
      let s2 := set_elapsedMillis (Clock_diffMillis current lastTicks) s1 in
      let '(u, s3) := Event_new NULL UpdateEventTypeId elapsedMillis_addr NULL s2 in
      let* (isRunning, s4) := drain fuel true (EventSystem_emit u s3) in
      let s5 := pace current s4 in
      if isRunning then frames fuel' current s5 else Done s5
  end.

Definition EventSystem_loop (fuel : nat) (s : State) : result State :=
  let '(e, s1) := Event_new NULL StartEventTypeId NULL NULL s in
  let s2 := set_elapsedMillis 0%float (EventSystem_emit e s1) in
  let '(lastTicks, s3) := now s2 in
  frames fuel lastTicks s3.

(** [EventSystem_cleanup]: the queue is emptied and its events destroyed,
    then every handler still listed is released once. *)
Fixpoint cleanup_events (q : list Event) (s : State) : State :=
  match q with
  | [] => s
  | e :: q' => cleanup_events q' (Event_free e (set_events q' s))
  end.

Fixpoint cleanup_handlers (l : list Z) (s : State) : result State :=
  match l with
  | [] => Done s
  | h :: l' => let* s1 := EventHandler_decref h s in cleanup_handlers l' s1
  end.

Definition EventSystem_cleanup (s : State) : result State :=
  let* s1 := cleanup_handlers (handlers s) (cleanup_events (events s) s) in
  Done (set_handlers [] s1).

(** ** Observations read off a trace *)

(** The callbacks invoked, in order: which handler, with which event. *)
Definition calls (tr : list Obs) : list (Z * Event) :=
  omap (fun o => match o with OInvoke h _ e => Some (h, e) | _ => None end) tr.

(** The events built, in order. *)
Definition created (tr : list Obs) : list Event :=
  omap (fun o => match o with OEventNew e => Some e | _ => None end) tr.

(** The event records freed, in order. *)
Definition freed (tr : list Obs) : list Event :=
  omap (fun o => match o with OEventFree e => Some e | _ => None end) tr.

(** The events whose payload destructor was called, in order. *)
Definition destructed (tr : list Obs) : list Event :=
  omap (fun o => match o with OEventDtor e => Some e | _ => None end) tr.

(** An event that owns a payload: data and destructor both present. *)
Definition owns_payload (e : Event) : bool :=
  negb (destructor e =? NULL) && negb (data e =? NULL).

(** The handlers up to the first [NULL] entry, where the walk of the
    enumerator stops. *)
Fixpoint upto_null (l : list Z) : list Z :=
  match l with
  | [] => []
  | h :: l' => if h =? NULL then [] else h :: upto_null l'
  end.

(** [n] calls of the same operation in a row. *)
Fixpoint times (n : nat) (f : State -> result State) (s : State) : result State :=
  match n with
  | O => Done s
  | S n' => let* s1 := f s in times n' f s1
  end.

(** What the release that drops the last reference shows to the world. *)
Definition last_release (p : Z) (h : EventHandler) : list Obs :=
  (if negb (eh_destructor h =? NULL) && negb (eh_data h =? NULL)
   then [OHandlerDtor p (eh_destructor h) (eh_data h)] else [])
  ++ [OHandlerFree p].

(** A callback that only updates the client's own memory: it makes no call
    into the event system. *)
Definition quiet (fn : Z) : Prop :=
  forall p e ms u, exists u', callback fn p e ms u = Return u'.

(** ** Vocabulary of the properties

    Predicates and helper functions the theorems are stated with; none of
    them is part of [events.c]. *)

(** The operation the specification gives for both [emit] and
    [raiseEvent]: the event goes to the tail of the pending queue, and
    nothing else changes. *)
Definition enqueue_at_tail (e : Event) (s : State) : State :=
  {| handlers := handlers s; events := events s ++ [e]; heap := heap s;
     brk := brk s; ticks := ticks s; elapsedMillis := elapsedMillis s;
     user := user s; trace := trace s |}.

(** [extends s s']: going from [s] to [s'] invoked no callback and only
    appended to the handler sequence. *)
Definition extends (s s' : State) : Prop :=
  calls (trace s') = calls (trace s)
  /\ exists added, handlers s' = handlers s ++ added.

(** Registering a list of handlers, one [EventSystem_addHandler] each. *)
Definition register (hs : list Z) (s : State) : State :=
  foldl (fun s h => EventSystem_addHandler h s) s hs.

(** [s'] differs from [s] in the client's memory and the trace only. *)
Definition same_system (s s' : State) : Prop :=
  handlers s' = handlers s /\ events s' = events s /\ heap s' = heap s
  /\ brk s' = brk s /\ ticks s' = ticks s /\ elapsedMillis s' = elapsedMillis s.

(** A live record whose callback is present and quiet. *)
Definition tame (m : gmap Z EventHandler) (h : Z) : Prop :=
  h <> NULL /\ exists r, m !! h = Some r /\ handler r <> NULL /\ quiet (handler r).

(** Every event ever built is, in order of construction, either freed, in
    flight (taken from the queue and being dispatched: [fl]), or pending;
    the payload destructors called are exactly those of the freed events
    that own a payload; and no two events share an address. *)
Definition ledger (fl : list Event) (s : State) : Prop :=
  created (trace s) = freed (trace s) ++ fl ++ events s
  /\ destructed (trace s) = filter (fun e => owns_payload e) (freed (trace s))
  /\ Forall (fun e => self e < brk s) (created (trace s))
  /\ NoDup (self <$> created (trace s)).

(** A step that leaves the queue and the event observations alone. *)
Definition keeps_events (s s' : State) : Prop :=
  events s' = events s
  /\ created (trace s') = created (trace s)
  /\ freed (trace s') = freed (trace s)
  /\ destructed (trace s') = destructed (trace s)
  /\ brk s <= brk s'.

(** How often an event occurs in a list of events. *)
Global Instance Event_eq_dec : EqDecision Event.
Proof. solve_decision. Defined.



(** [k] events of tag [ty] without sender or payload, built one after the
    other from address [b] on. *)
Definition fresh_events (ty b : Z) (k : nat) : list Event :=
  (fun i : nat => {| self := b + Z.of_nat i; sender := NULL; type := ty;
                     data := NULL; destructor := NULL |}) <$> seq 0 k.

(** Each event of [es] in turn, delivered to each handler of [hs] in turn. *)
Fixpoint deliveries (hs : list Z) (es : list Event) : list (Z * Event) :=
  match es with
  | [] => []
  | e :: es' => ((fun h => (h, e)) <$> hs) ++ deliveries hs es'
  end.

(** The number of break-loop requests in a queue. *)
Definition breaks (q : list Event) : nat :=
  length (filter (fun e => type e = BreakLoopEventTypeId) q).

(** The tags of [events.h] for [Start] and [Update] are not the two
    internal tags that [events.c] derives from [ExitEventTypeId]. *)
Definition public_tags_ok : Prop :=
  StartEventTypeId <> RemoveHandlerEventTypeId
  /\ StartEventTypeId <> BreakLoopEventTypeId
  /\ UpdateEventTypeId <> RemoveHandlerEventTypeId
  /\ UpdateEventTypeId <> BreakLoopEventTypeId.

(** The two events [EventSystem_loop] builds before the first drain. *)
Definition start_event (a : Z) : Event :=
  {| self := a; sender := NULL; type := StartEventTypeId; data := NULL;
     destructor := NULL |}.
Definition update_event (a : Z) : Event :=
  {| self := a; sender := NULL; type := UpdateEventTypeId;
     data := elapsedMillis_addr; destructor := NULL |}.

(** Client events: neither of the two internal tags. *)
Definition plain (e : Event) : Prop :=
  type e <> RemoveHandlerEventTypeId /\ type e <> BreakLoopEventTypeId.

(** What one release leaves of a record: nothing when the count drops to
    zero, the record with its count lowered by one otherwise. *)
Definition released (r : EventHandler) : option EventHandler :=
  if 0 =? _refCount r - 1 then None
  else Some (with_refCount (_refCount r - 1) r).

(** Every live handler record has a count of at least one. *)
Definition counts_positive (m : gmap Z EventHandler) : Prop :=
  forall p r, m !! p = Some r -> 1 <= _refCount r.

(** A callback that, on every event, requests the removal of its own
    handler and then a stop of the loop. *)
Definition removes_itself_and_stops (fn : Z) : Prop :=
  forall p e ms u, exists u',
    callback fn p e ms u = CallRemoveHandler p (CallExit (Return u')).

End EventSystem.

(** * Concrete inputs *)

Section Inputs.

(** A small client: callback [200] registers handler [11] and counts; every
    other callback only counts its invocations.  The public tags are
    [0, 1, 2] (so the internal ones are [3] and [4]); the clock advances
    10 ms from one reading to the next. *)
Definition demo_callback (fn self : Z) (e : Event) (ms : float) (u : nat) : Prog nat :=
  if fn =? 200 then CallAddHandler 11 (Return (S u)) else Return (S u).

Definition demo_world : World := {|
  StartEventTypeId := 0;
  UpdateEventTypeId := 1;
  ExitEventTypeId := 2;
  Clock := Z;
  Clock_now n := 10 * Z.of_nat n;
  Clock_diffMillis a b := PrimFloat.of_uint63 (Uint63.of_Z (a - b));
  elapsedMillis_addr := 4096;
  U := nat;
  callback := demo_callback
|}.

#[local] Existing Instance demo_world.

(** A handler record without payload. *)
Definition plain_handler (fn rc : Z) : EventHandler :=
  {| eh_data := NULL; eh_destructor := NULL; handler := fn; _refCount := rc |}.

(** Just after [EventSystem_init], with nothing observed yet. *)
Definition boot : State :=
  {| handlers := []; events := []; heap := ∅; brk := 16; ticks := 0;
     elapsedMillis := 0%float; user := 0%nat; trace := [] |}.

(** Two live handlers [10] and [11], both registered, in this order. *)
Definition two : State :=
  register [10; 11] (set_heap (<[10 := plain_handler 100 1]> (<[11 := plain_handler 101 1]> ∅)) boot).

(** Handler [20], whose callback registers handler [11], alone in the
    sequence. *)
Definition adder : State :=
  register [20] (set_heap (<[20 := plain_handler 200 1]> (<[11 := plain_handler 101 1]> ∅)) boot).

(** The value of a run that is known to finish. *)
Definition outcome {A : Type} (r : result A) (d : A) : A :=
  match r with Done a => a | _ => d end.

Definition ping : Event :=
  {| self := 8; sender := NULL; type := 7; data := NULL; destructor := NULL |}.

(** The request to remove handler [10], as [EventSystem_removeHandler 10]
    builds it in [two]. *)
Definition remove10 : Event :=
  {| self := 16; sender := NULL; type := 3; data := 10; destructor := NULL |}.

(** A pending client event that owns a payload, and a stop request. *)
Definition owner : State :=
  EventSystem_exit
    (EventSystem_emit (fst (Event_new NULL 7 5 6 two)) (snd (Event_new NULL 7 5 6 two))).

(** A world in which every frame is measured to have taken [d] ms. *)
Definition measured_world (d : float) : World := {|
  StartEventTypeId := 0;
  UpdateEventTypeId := 1;
  ExitEventTypeId := 2;
  Clock := unit;
  Clock_now _ := tt;
  Clock_diffMillis _ _ := d;
  elapsedMillis_addr := 4096;
  U := nat;
  callback := demo_callback
|}.

Definition measured_boot (d : float) : @State (measured_world d) :=
  @Build_State (measured_world d) [] [] ∅ 16 0 0%float 0%nat [].

(** A client event built and queued in one step. *)
Definition queue_event (ty d dt : Z) (s : State) : State :=
  EventSystem_emit (fst (Event_new NULL ty d dt s)) (snd (Event_new NULL ty d dt s)).

(** Two client events pending over the two handlers of [two]. *)
Definition busy : State := queue_event 8 NULL NULL (queue_event 7 5 6 two).

(** Handler [10], a [NULL] entry, and handler [11], registered in this
    order. *)
Definition gap : State :=
  register [10; NULL; 11]
    (set_heap (<[10 := plain_handler 100 1]> (<[11 := plain_handler 101 1]> ∅)) boot).

(** A callback body that uses the deferred operations and registers a
    handler. *)
Definition tidy_up : Prog nat :=
  CallRemoveHandler 10 (CallExit (CallAddHandler 11 (CallEmit NULL 7 NULL NULL (Return 0%nat)))).

(** A client whose every callback removes its own handler and stops the
    loop. *)
Definition selfish_world : World := {|
  StartEventTypeId := 0;
  UpdateEventTypeId := 1;
  ExitEventTypeId := 2;
  Clock := Z;
  Clock_now n := 10 * Z.of_nat n;
  Clock_diffMillis a b := PrimFloat.of_uint63 (Uint63.of_Z (a - b));
  elapsedMillis_addr := 4096;
  U := nat;
  callback := fun fn self e ms u => CallRemoveHandler self (CallExit (Return (S u)))
|}.

(** Handler [10], holding its only reference, alone in the sequence. *)
Definition loner : @State selfish_world :=
  @Build_State selfish_world [10] [] (<[10 := plain_handler 100 1]> ∅) 16 0
    0%float 0%nat [].

End Inputs.

(** * Properties *)

Section Properties.
Context `{W : World}.

(** ** Emission *)

(** C6: [EventSystem_emit] and [EventSystem_raiseEvent] are the same
    function, and on every event and state both do what the specification
    says: the event is put at the tail of the pending queue and nothing
    else changes. *)
Theorem emit_is_raiseEvent :
  EventSystem_emit = EventSystem_raiseEvent
  /\ forall (e : Event) (s : State),
       EventSystem_emit e s = enqueue_at_tail e s
       /\ EventSystem_raiseEvent e s = enqueue_at_tail e s
       /\ events (EventSystem_emit e s) = events s ++ [e].
Proof. split; [reflexivity|]. intros e s. repeat split. Qed.

(** ** Reference counting *)

Lemma incref_times (n : nat) : forall (p : Z) (s : State) (h : EventHandler),
  heap s !! p = Some h ->
  exists s', times n (EventHandler_incref p) s = Done s'
    /\ heap s' !! p = Some (with_refCount (_refCount h + Z.of_nat n) h)
    /\ trace s' = trace s.
Proof.
  induction n as [|n IH]; intros p s h Hp.
  - exists s. cbn. rewrite Z.add_0_r. by destruct h.
  - cbn [times]. unfold EventHandler_incref at 1. rewrite Hp. cbn [bind].
    destruct (IH p (set_heap (<[p:=with_refCount (_refCount h + 1) h]> (heap s)) s)
                (with_refCount (_refCount h + 1) h)) as (s' & Hrun & Hh & Ht).
    { cbn. apply lookup_insert_eq. }
    exists s'. split; [exact Hrun|]. split; [|exact Ht].
    rewrite Hh. unfold with_refCount. cbn. f_equal. f_equal. lia.
Qed.

Lemma decref_keeps (p : Z) (s : State) (h : EventHandler) :
  heap s !! p = Some h -> _refCount h <> 1 ->
  exists s', EventHandler_decref p s = Done s'
    /\ heap s' !! p = Some (with_refCount (_refCount h - 1) h)
    /\ trace s' = trace s.
Proof.
  intros Hp Hn. unfold EventHandler_decref. rewrite Hp.
  destruct (Z.eqb_spec 0 (_refCount h - 1)) as [E|E]; [lia|].
  eexists. split; [reflexivity|]. cbn. split; [apply lookup_insert_eq|reflexivity].
Qed.

Lemma decref_last (p : Z) (s : State) (h : EventHandler) :
  heap s !! p = Some h -> _refCount h = 1 ->
  exists s', EventHandler_decref p s = Done s'
    /\ heap s' !! p = None
    /\ trace s' = trace s ++ last_release p h.
Proof.
  intros Hp Hn. unfold EventHandler_decref. rewrite Hp, Hn. cbn [Z.sub Z.eqb Z.add Z.opp Z.pos_sub].
  eexists. split; [reflexivity|]. unfold last_release.
  destruct (negb (eh_destructor h =? 0) && negb (eh_data h =? 0)); cbn.
  - split; [apply lookup_delete_eq|]. by rewrite <- app_assoc.
  - split; [apply lookup_delete_eq|reflexivity].
Qed.

Lemma decref_times_below (k : nat) : forall (p : Z) (s : State) (h : EventHandler),
  heap s !! p = Some h -> Z.of_nat k < _refCount h ->
  exists s', times k (EventHandler_decref p) s = Done s'
    /\ heap s' !! p = Some (with_refCount (_refCount h - Z.of_nat k) h)
    /\ trace s' = trace s.
Proof.
  induction k as [|k IH]; intros p s h Hp Hk.
  - exists s. cbn. rewrite Z.sub_0_r. by destruct h.
  - destruct (decref_keeps p s h Hp) as (s1 & Hrun & Hh & Ht); [lia|].
    destruct (IH p s1 _ Hh) as (s' & Hrun' & Hh' & Ht'); [cbn; lia|].
    exists s'. cbn [times]. rewrite Hrun. cbn [bind]. split; [exact Hrun'|].
    split; [|congruence]. rewrite Hh'. unfold with_refCount. cbn. f_equal. f_equal. lia.
Qed.

Lemma times_snoc (n : nat) (f : State -> result State) : forall s,
  times (S n) f s = let* s1 := times n f s in f s1.
Proof.
  induction n as [|n IH]; intros s.
  - cbn. by destruct (f s).
  - cbn [times] in *. destruct (f s) as [s1| |]; cbn [bind]; [|done..]. apply IH.
Qed.

Lemma decref_times_all (n : nat) (p : Z) (s : State) (h : EventHandler) :
  heap s !! p = Some h -> _refCount h = Z.of_nat n -> (1 <= n)%nat ->
  exists s', times n (EventHandler_decref p) s = Done s'
    /\ heap s' !! p = None
    /\ trace s' = trace s ++ last_release p h.
Proof.
  intros Hp Hn Hpos. destruct n as [|k]; [lia|].
  rewrite times_snoc.
  destruct (decref_times_below k p s h Hp) as (s1 & Hrun & Hh & Ht); [lia|].
  rewrite Hrun. cbn [bind].
  destruct (decref_last p s1 _ Hh) as (s' & Hrun' & Hh' & Ht'); [cbn; lia|].
  exists s'. split; [exact Hrun'|]. split; [exact Hh'|].
  rewrite Ht', Ht. reflexivity.
Qed.

(** C7: a handler built by [EventHandler_new] and retained up to a count
    of [n] survives any [k < n] releases, which show nothing to the world;
    the [n]-th release calls the payload destructor once (when there is a
    payload) and frees the record once, and the record is gone. *)
Theorem release_to_zero_destroys_once
    (d dt fn : Z) (s s1 : State) (p : Z) (n k : nat) :
  EventHandler_new d dt fn s = Done (p, s1) ->
  (1 <= n)%nat -> (k < n)%nat ->
  exists s2 s3 s4 h,
    times (n - 1) (EventHandler_incref p) s1 = Done s2
    /\ heap s2 !! p = Some h /\ _refCount h = Z.of_nat n
    /\ times k (EventHandler_decref p) s2 = Done s3
    /\ trace s3 = trace s /\ is_Some (heap s3 !! p)
    /\ times n (EventHandler_decref p) s2 = Done s4
    /\ trace s4 = trace s ++
         (if d =? NULL then [] else [OHandlerDtor p dt d]) ++ [OHandlerFree p]
    /\ heap s4 !! p = None.
Proof.
  intros Hnew Hn Hk. unfold EventHandler_new in Hnew.
  destruct (negb (d =? 0) && (dt =? 0)) eqn:Hassert; [discriminate|].
  cbn in Hnew. injection Hnew as <- <-.
  set (h0 := {| eh_data := d; eh_destructor := dt; handler := fn; _refCount := 1 |}).
  set (s1 := set_heap _ _).
  assert (H1 : heap s1 !! brk s = Some h0) by (cbn; apply lookup_insert_eq).
  destruct (incref_times (n - 1) _ _ _ H1) as (s2 & Hinc & Hh2 & Ht2).
  destruct (decref_times_below k _ _ _ Hh2) as (s3 & Hdec & Hh3 & Ht3); [cbn; lia|].
  destruct (decref_times_all n _ _ _ Hh2) as (s4 & Hall & Hh4 & Ht4); [cbn; lia|lia|].
  exists s2, s3, s4, (with_refCount (_refCount h0 + Z.of_nat (n - 1)) h0).
  repeat split; try assumption.
  - cbn. lia.
  - rewrite Ht3, Ht2. reflexivity.
  - rewrite Hh3. eauto.
  - rewrite Ht4, Ht2. cbn [trace s1 set_heap set_brk]. f_equal.
    unfold last_release. cbn.
    destruct (Z.eqb_spec d 0) as [->|Hd]; cbn.
    + by rewrite andb_false_r.
    + destruct (Z.eqb_spec dt 0) as [->|Hdt]; [|reflexivity].
      cbn in Hassert. destruct (Z.eqb_spec d 0); [lia|discriminate].
Qed.

(** ** What a callback body can do to the handler sequence *)

Lemma extends_refl (s : State) : extends s s.
Proof. split; [reflexivity|]. exists []. by rewrite app_nil_r. Qed.

Lemma extends_trans (s1 s2 s3 : State) :
  extends s1 s2 -> extends s2 s3 -> extends s1 s3.
Proof.
  intros [Hc1 [a1 Hh1]] [Hc2 [a2 Hh2]]. split; [congruence|].
  exists (a1 ++ a2). rewrite Hh2, Hh1. by rewrite app_assoc.
Qed.

Lemma calls_app (t1 t2 : list Obs) : calls (t1 ++ t2) = calls t1 ++ calls t2.
Proof. apply omap_app. Qed.

Lemma extends_same (s s' : State) :
  calls (trace s') = calls (trace s) -> handlers s' = handlers s -> extends s s'.
Proof. intros Hc Hh. split; [exact Hc|]. exists []. by rewrite app_nil_r. Qed.

Lemma Event_new_extends (sd ty d dt : Z) (s : State) :
  extends s (snd (Event_new sd ty d dt s)).
Proof. apply extends_same; cbn; [|reflexivity]. rewrite calls_app. cbn. apply app_nil_r. Qed.

Lemma incref_extends (p : Z) (s s' : State) :
  EventHandler_incref p s = Done s' -> extends s s'.
Proof.
  unfold EventHandler_incref. destruct (heap s !! p); [|discriminate].
  intros [= <-]. by apply extends_same.
Qed.

Lemma decref_extends (p : Z) (s s' : State) :
  EventHandler_decref p s = Done s' -> extends s s'.
Proof.
  unfold EventHandler_decref. destruct (heap s !! p) as [h|]; [|discriminate].
  destruct (0 =? _refCount h - 1); intros [= <-]; [|by apply extends_same].
  apply extends_same; [|by destruct (negb _ && negb _)].
  destruct (negb _ && negb _); cbn; rewrite ?calls_app; cbn; by rewrite ?app_nil_r.
Qed.

Lemma handler_new_extends (d dt fn : Z) (s s' : State) (a : Z) :
  EventHandler_new d dt fn s = Done (a, s') -> extends s s'.
Proof.
  unfold EventHandler_new. destruct (negb (d =? 0) && (dt =? 0)); [discriminate|].
  cbn. intros [= <- <-]. by apply extends_same.
Qed.

Lemma exec_extends (p : Prog U) : forall s s', exec p s = Done s' -> extends s s'.
Proof.
  induction p as [u|sd ty d dt k IH|sd ty d dt k IH|d dt fn k IH|h k IH|h k IH
                 |h k IH|h k IH|k IH]; intros s s' H; cbn in H.
  - injection H as <-. by apply extends_same.
  - apply IH in H. eapply extends_trans; [|exact H].
    apply extends_same; cbn; [|reflexivity]. rewrite calls_app. cbn. apply app_nil_r.
  - apply IH in H. eapply extends_trans; [|exact H].
    apply extends_same; cbn; [|reflexivity]. rewrite calls_app. cbn. apply app_nil_r.
  - destruct (EventHandler_new d dt fn s) as [[a s1]| |] eqn:E; [|discriminate..].
    cbn in H. apply IH in H. apply handler_new_extends in E.
    eapply extends_trans; eassumption.
  - destruct (EventHandler_incref h s) as [s1| |] eqn:E; [|discriminate..].
    cbn in H. apply IH in H. apply incref_extends in E.
    eapply extends_trans; eassumption.
  - destruct (EventHandler_decref h s) as [s1| |] eqn:E; [|discriminate..].
    cbn in H. apply IH in H. apply decref_extends in E.
    eapply extends_trans; eassumption.
  - apply IH in H. eapply extends_trans; [|exact H].
    split; [reflexivity|]. by exists [h].
  - apply IH in H. eapply extends_trans; [|exact H].
    apply extends_same; cbn; [|reflexivity]. rewrite calls_app. cbn. apply app_nil_r.
  - apply IH in H. eapply extends_trans; [|exact H].
    apply extends_same; cbn; [|reflexivity]. rewrite calls_app. cbn. apply app_nil_r.
Qed.

(** One invocation: the callback is entered once, and its body only
    appends to the handler sequence. *)
Lemma handleEvent_calls (h : Z) (e : Event) (s s' : State) :
  EventHandler_handleEvent h e s = Done s' ->
  calls (trace s') = calls (trace s) ++ [(h, e)]
  /\ exists added, handlers s' = handlers s ++ added.
Proof.
  unfold EventHandler_handleEvent. destruct (heap s !! h) as [r|]; [|discriminate].
  destruct (handler r =? 0); [discriminate|].
  intros H. apply exec_extends in H. destruct H as [Hc Hh]. split; [|exact Hh].
  rewrite Hc. cbn. by rewrite calls_app.
Qed.

Lemma upto_null_id (l : list Z) : 0 ∉ l -> upto_null l = l.
Proof.
  induction l as [|h l IH]; [done|]. intros Hn. cbn.
  destruct (Z.eqb_spec h 0) as [->|_]; [set_solver|]. f_equal. apply IH. set_solver.
Qed.

Lemma upto_null_app (l k : list Z) : 0 ∉ l -> upto_null (l ++ k) = l ++ upto_null k.
Proof.
  induction l as [|h l IH]; [done|]. intros Hn. cbn.
  destruct (Z.eqb_spec h 0) as [->|_]; [set_solver|]. f_equal. apply IH. set_solver.
Qed.

(** ** The walk of the enumerator *)

(** The walk of the enumerator from cursor [i]: when it completes, the
    callbacks entered are those of the entries from [i] on of the sequence
    as it stands at the end, in sequence order, up to the first [NULL]. *)
Lemma broadcast_calls (e : Event) (fuel : nat) : forall (i : nat) (s s' : State),
  broadcast fuel {| index := i |} e s = Done s' ->
  (exists added, handlers s' = handlers s ++ added)
  /\ calls (trace s') = calls (trace s)
       ++ ((fun h => (h, e)) <$> upto_null (drop i (handlers s'))).
Proof.
  induction fuel as [|fuel IH]; intros i s s' H; [discriminate|].
  cbn [broadcast] in H. unfold EventHandlerEnumerator_getNextHandler in H.
  cbn [index] in H. unfold List_count, List_get in H.
  destruct (Nat.leb_spec (length (handlers s)) i) as [Hle|Hlt].
  - cbn in H. injection H as <-. split; [exists []; by rewrite app_nil_r|].
    rewrite drop_ge by done. cbn. by rewrite app_nil_r.
  - destruct (lookup_lt_is_Some_2 _ _ Hlt) as [h Hh]. rewrite Hh in H. cbn beta iota in H.
    destruct (Z.eqb_spec h 0) as [Hz|Hnz].
    + subst h. injection H as <-. split; [exists []; by rewrite app_nil_r|].
      rewrite (drop_S _ _ _ Hh). cbn. by rewrite app_nil_r.
    + destruct (EventHandler_handleEvent h e s) as [s1| |] eqn:E; [|discriminate..].
      cbn [bind] in H. apply IH in H. destruct H as [[a2 Ha2] Hc].
      apply handleEvent_calls in E. destruct E as [Hc1 [a1 Ha1]].
      split; [exists (a1 ++ a2); rewrite Ha2, Ha1; by rewrite app_assoc|].
      assert (Hh' : handlers s' !! i = Some h).
      { rewrite Ha2, Ha1, <- app_assoc. by apply lookup_app_l_Some. }
      rewrite (drop_S _ _ _ Hh'). cbn.
      destruct (Z.eqb_spec h 0) as [?|_]; [done|].
      rewrite Hc, Hc1. cbn. by rewrite <- app_assoc.
Qed.

Lemma register_spec (hs : list Z) : forall s,
  handlers (register hs s) = handlers s ++ hs
  /\ events (register hs s) = events s
  /\ heap (register hs s) = heap s
  /\ brk (register hs s) = brk s
  /\ trace (register hs s) = trace s.
Proof.
  induction hs as [|h hs IH]; intros s.
  - cbn. by rewrite app_nil_r.
  - change (register (h :: hs) s) with (register hs (EventSystem_addHandler h s)).
    destruct (IH (EventSystem_addHandler h s)) as (-> & -> & -> & -> & ->).
    cbn. unfold List_add. by rewrite <- app_assoc.
Qed.

(** ** Handlers with quiet callbacks *)

Lemma handleEvent_tame (h : Z) (e : Event) (s : State) :
  tame (heap s) h ->
  exists s', EventHandler_handleEvent h e s = Done s'
    /\ same_system s s'
    /\ calls (trace s') = calls (trace s) ++ [(h, e)]
    /\ created (trace s') = created (trace s).
Proof.
  intros (_ & r & Hr & Hfn & Hq). unfold EventHandler_handleEvent. rewrite Hr.
  destruct (Z.eqb_spec (handler r) 0) as [?|_]; [done|].
  destruct (Hq h e (elapsedMillis s) (user s)) as [u' ->]. cbn.
  eexists. split; [reflexivity|]. split; [by repeat split|]. cbn.
  unfold created. rewrite calls_app, omap_app. cbn. by rewrite app_nil_r.
Qed.

Lemma broadcast_tame (e : Event) (fuel : nat) : forall (i : nat) (s : State),
  Forall (tame (heap s)) (handlers s) ->
  (length (drop i (handlers s)) < fuel)%nat ->
  exists s', broadcast fuel {| index := i |} e s = Done s'
    /\ same_system s s'
    /\ calls (trace s') = calls (trace s) ++ ((fun h => (h, e)) <$> drop i (handlers s))
    /\ created (trace s') = created (trace s).
Proof.
  induction fuel as [|fuel IH]; intros i s Hall Hfuel; [lia|].
  cbn [broadcast]. unfold EventHandlerEnumerator_getNextHandler.
  cbn [index]. unfold List_count, List_get.
  destruct (Nat.leb_spec (length (handlers s)) i) as [Hle|Hlt].
  - cbn. exists s. rewrite drop_ge by done. cbn. rewrite app_nil_r. by repeat split.
  - destruct (lookup_lt_is_Some_2 _ _ Hlt) as [h Hh]. rewrite Hh. cbn beta iota.
    assert (Ht : tame (heap s) h).
    { eapply Forall_forall in Hall; [exact Hall|]. eapply list_elem_of_lookup_2, Hh. }
    destruct (Z.eqb_spec h 0) as [->|_]; [by destruct Ht|].
    destruct (handleEvent_tame h e s Ht) as (s1 & -> & Hs1 & Hc1 & Hn1). cbn [bind].
    destruct Hs1 as (Hh1 & He1 & Hp1 & Hb1 & Ht1 & Hm1).
    rewrite (drop_S _ _ _ Hh) in Hfuel. cbn in Hfuel.
    destruct (IH (S i) s1) as (s' & Hrun & Hs' & Hc' & Hn').
    { by rewrite Hp1, Hh1. }
    { rewrite Hh1. lia. }
    exists s'. split; [exact Hrun|]. destruct Hs' as (? & ? & ? & ? & ? & ?).
    split; [repeat split; congruence|]. split; [|congruence].
    rewrite Hc', Hc1, Hh1, (drop_S _ _ _ Hh). cbn. by rewrite <- app_assoc.
Qed.

(** C8: handlers registered by a sequence of [EventSystem_addHandler]
    calls are invoked, for a broadcast event, in the order of registration;
    handlers registered by callbacks during the broadcast follow them. *)
Theorem handlers_invoked_in_registration_order
    (hs : list Z) (e : Event) (s0 : State) :
  0 ∉ hs ->
  (forall fuel s',
      broadcast fuel EventSystem_getHandlers e (register hs (EventSystem_init s0)) = Done s' ->
      exists added, handlers s' = hs ++ added
        /\ calls (trace s') = calls (trace s0)
             ++ ((fun h => (h, e)) <$> (hs ++ upto_null added)))
  /\ (Forall (tame (heap s0)) hs ->
      forall fuel, (length hs < fuel)%nat ->
      exists s',
        broadcast fuel EventSystem_getHandlers e (register hs (EventSystem_init s0)) = Done s'
        /\ handlers s' = hs
        /\ calls (trace s') = calls (trace s0) ++ ((fun h => (h, e)) <$> hs)).
Proof.
  intros Hnn.
  destruct (register_spec hs (EventSystem_init s0)) as (Hh & _ & Hp & _ & Ht).
  cbn in Hh, Hp, Ht. split.
  - intros fuel s' H. apply broadcast_calls in H. destruct H as [[added Ha] Hc].
    rewrite Hh in Ha. exists added. split; [exact Ha|].
    rewrite Hc, Ht, Ha, drop_0. by rewrite upto_null_app.
  - intros Hall fuel Hfuel.
    destruct (broadcast_tame e fuel 0 (register hs (EventSystem_init s0)))
      as (s' & Hrun & Hs' & Hc & _).
    { by rewrite Hh, Hp. }
    { by rewrite drop_0, Hh. }
    exists s'. split; [exact Hrun|]. destruct Hs' as (Hh' & _).
    split; [congruence|]. rewrite Hc, Ht, Hh, drop_0. reflexivity.
Qed.

(** C9: the walk reads the live sequence.  When the callback of the
    handler under the cursor appends a handler to the sequence, the walk,
    if it completes, enters the callback of the appended handler with the
    same event, after the one that appended it. *)
Theorem handler_added_during_broadcast_is_invoked
    (fuel i : nat) (e : Event) (s s1 s' : State) (g h' : Z) :
  handlers s !! i = Some g ->
  EventHandler_handleEvent g e s = Done s1 ->
  h' ∈ drop (length (handlers s)) (handlers s1) ->
  broadcast fuel {| index := i |} e s = Done s' ->
  0 ∉ handlers s' ->
  exists mid rest,
    calls (trace s') = calls (trace s) ++ (g, e) :: mid ++ (h', e) :: rest.
Proof.
  intros Hg Hrun Hnew Hwalk Hnn.
  destruct fuel as [|fuel]; [discriminate|].
  pose proof (lookup_lt_Some _ _ _ Hg) as Hlt.
  destruct (handleEvent_calls _ _ _ _ Hrun) as [Hc1 [a1 Ha1]].
  cbn [broadcast] in Hwalk. unfold EventHandlerEnumerator_getNextHandler in Hwalk.
  cbn [index] in Hwalk. unfold List_count, List_get in Hwalk.
  destruct (Nat.leb_spec (length (handlers s)) i) as [?|_]; [lia|].
  rewrite Hg in Hwalk. cbn beta iota in Hwalk.
  destruct (Z.eqb_spec g 0) as [Hz|_].
  { injection Hwalk as <-. exfalso. apply Hnn. subst g.
    eapply list_elem_of_lookup_2, Hg. }
  rewrite Hrun in Hwalk. cbn [bind] in Hwalk.
  destruct (broadcast_calls _ _ _ _ _ Hwalk) as [[a2 Ha2] Hc].
  rewrite Ha1 in Ha2, Hnew. rewrite drop_app_length in Hnew.
  assert (Hin : h' ∈ drop (S i) (handlers s')).
  { rewrite Ha2, <- app_assoc, drop_app_le by lia. set_solver. }
  rewrite upto_null_id in Hc.
  2:{ intros H0. apply Hnn. rewrite <- (take_drop (S i) (handlers s')). set_solver. }
  destruct (list_elem_of_split _ _ Hin) as (l1 & l2 & Hsplit).
  exists ((fun h => (h, e)) <$> l1), ((fun h => (h, e)) <$> l2).
  rewrite Hc, Hc1, Hsplit, fmap_app, fmap_cons, <- app_assoc. reflexivity.
Qed.

(** ** One turn of the drain loop *)

Lemma decref_handlers (p : Z) (s s' : State) :
  EventHandler_decref p s = Done s' ->
  handlers s' = handlers s /\ calls (trace s') = calls (trace s).
Proof.
  unfold EventHandler_decref. destruct (heap s !! p) as [h|]; [|discriminate].
  destruct (0 =? _refCount h - 1); intros [= <-]; [|done].
  destruct (negb _ && negb _); cbn; rewrite ?calls_app; cbn; by rewrite ?app_nil_r.
Qed.

Lemma Event_free_calls (e : Event) (s : State) :
  handlers (Event_free e s) = handlers s
  /\ calls (trace (Event_free e s)) = calls (trace s).
Proof.
  unfold Event_free. destruct (negb _ && negb _); cbn;
    rewrite ?calls_app; cbn; by rewrite ?app_nil_r.
Qed.

Lemma internal_tags_differ : RemoveHandlerEventTypeId <> BreakLoopEventTypeId.
Proof. unfold RemoveHandlerEventTypeId, BreakLoopEventTypeId. lia. Qed.

(** What a turn of the drain loop does with the two internal tags: a
    break-loop event reaches no callback; a remove-handler event is first
    handled by the system (its target leaves the sequence) and is then
    broadcast, like any other event, to the handlers of the sequence as it
    stands after the removal. *)
Theorem remove_event_is_broadcast_to_remaining_handlers
    (fuel : nat) (e : Event) (b r : bool) (s s' : State) :
  dispatch fuel e b s = Done (r, s') ->
  (type e = BreakLoopEventTypeId -> calls (trace s') = calls (trace s))
  /\ (type e = RemoveHandlerEventTypeId ->
      exists added,
        handlers s' =
          (if data e =? NULL then handlers s
           else List_remove (handlers s) (data e)) ++ added
        /\ calls (trace s') = calls (trace s)
             ++ ((fun h => (h, e)) <$> upto_null (handlers s'))).
Proof.
  intros H. unfold dispatch, EventSystem_handleEvent in H. split.
  - intros Hty. rewrite Hty, Z.eqb_refl in H. cbn in H. injection H as _ <-.
    destruct (Event_free_calls e
      (EventSystem_emit (fst (Event_new 0 ExitEventTypeId 0 0 s))
                        (snd (Event_new 0 ExitEventTypeId 0 0 s)))) as [_ Hc].
    cbn in Hc |- *. rewrite Hc, calls_app. cbn. apply app_nil_r.
  - intros Hty. rewrite Hty in H.
    destruct (Z.eqb_spec RemoveHandlerEventTypeId BreakLoopEventTypeId) as [E|_];
      [by apply internal_tags_differ in E|].
    rewrite Z.eqb_refl in H.
    assert (Hgo : forall s1,
      handlers s1 = (if data e =? 0 then handlers s
                     else List_remove (handlers s) (data e)) ->
      calls (trace s1) = calls (trace s) ->
      (let* s2 := broadcast fuel EventSystem_getHandlers e s1
       in Done (b, Event_free e s2)) = Done (r, s') ->
      exists added,
        handlers s' = (if data e =? 0 then handlers s
                       else List_remove (handlers s) (data e)) ++ added
        /\ calls (trace s') = calls (trace s)
             ++ ((fun h => (h, e)) <$> upto_null (handlers s'))).
    { intros s1 Hh1 Hc1 Hrun.
      destruct (broadcast fuel EventSystem_getHandlers e s1) as [s2| |] eqn:Hb;
        [|discriminate..].
      cbn in Hrun. injection Hrun as _ <-.
      apply broadcast_calls in Hb. destruct Hb as [[added Ha] Hc].
      destruct (Event_free_calls e s2) as [-> ->].
      exists added. rewrite Ha, Hh1. split; [reflexivity|].
      rewrite Hc, Hc1, drop_0, Ha, Hh1. reflexivity. }
    destruct (Z.eqb_spec (data e) 0) as [Hd|Hd]; cbn [negb] in H.
    + cbn in H. by apply (Hgo s).
    + destruct (EventHandler_decref (data e) _) as [s1| |] eqn:Hdec; [|discriminate..].
      cbn [bind] in H. destruct (decide _) as [?|_]; [discriminate|].
      apply decref_handlers in Hdec. destruct Hdec as [Hh1 Hc1].
      by apply (Hgo s1).
Qed.

(** ** The ledger of events *)

Lemma keeps_events_refl (s : State) : keeps_events s s.
Proof. by repeat split. Qed.

Lemma ledger_kept (fl : list Event) (s s' : State) :
  keeps_events s s' -> ledger fl s -> ledger fl s'.
Proof.
  intros (He & Hc & Hf & Hd & Hb) (L1 & L2 & L3 & L4).
  unfold ledger. rewrite He, Hc, Hf, Hd. repeat split; try done.
  eapply Forall_impl; [exact L3|]. cbn. intros. lia.
Qed.

(** The ledger is in order when the system starts with no event observed. *)
Lemma ledger_after_init (s : State) :
  created (trace s) = [] -> freed (trace s) = [] -> destructed (trace s) = [] ->
  ledger [] (EventSystem_init s).
Proof.
  intros Hc Hf Hd. unfold ledger.
  cbn [EventSystem_init trace brk events set_events set_handlers].
  rewrite Hc, Hf, Hd. repeat split; constructor.
Qed.

Lemma created_app (t1 t2 : list Obs) : created (t1 ++ t2) = created t1 ++ created t2.
Proof. apply omap_app. Qed.
Lemma freed_app (t1 t2 : list Obs) : freed (t1 ++ t2) = freed t1 ++ freed t2.
Proof. apply omap_app. Qed.
Lemma destructed_app (t1 t2 : list Obs) :
  destructed (t1 ++ t2) = destructed t1 ++ destructed t2.
Proof. apply omap_app. Qed.

Ltac trace_simpl :=
  cbn; rewrite ?created_app, ?freed_app, ?destructed_app, ?calls_app; cbn;
  rewrite ?app_nil_r.

Lemma incref_keeps_events (p : Z) (s s' : State) :
  EventHandler_incref p s = Done s' -> keeps_events s s'.
Proof.
  unfold EventHandler_incref. destruct (heap s !! p); [|discriminate].
  intros [= <-]. by repeat split.
Qed.

Lemma decref_keeps_events (p : Z) (s s' : State) :
  EventHandler_decref p s = Done s' -> keeps_events s s'.
Proof.
  unfold EventHandler_decref. destruct (heap s !! p) as [h|]; [|discriminate].
  destruct (0 =? _refCount h - 1); intros [= <-]; [|by repeat split].
  destruct (negb _ && negb _); repeat split; by trace_simpl.
Qed.

Lemma handler_new_keeps_events (d dt fn : Z) (s s' : State) (a : Z) :
  EventHandler_new d dt fn s = Done (a, s') -> keeps_events s s'.
Proof.
  unfold EventHandler_new. destruct (negb (d =? 0) && (dt =? 0)); [discriminate|].
  cbn. intros [= <- <-]. repeat split. cbn. lia.
Qed.

(** Building an event and putting it on the queue. *)
Lemma ledger_emit_new (fl : list Event) (sd ty d dt : Z) (s : State) :
  ledger fl s ->
  ledger fl (EventSystem_emit (fst (Event_new sd ty d dt s))
                              (snd (Event_new sd ty d dt s))).
Proof.
  intros (L1 & L2 & L3 & L4). unfold ledger. trace_simpl. unfold Queue_enqueue.
  repeat split.
  - rewrite L1. by rewrite <- !app_assoc.
  - exact L2.
  - apply Forall_app. split.
    + eapply Forall_impl; [exact L3|]. cbn. intros. lia.
    + repeat constructor. cbn. lia.
  - rewrite fmap_app. apply NoDup_app. split; [exact L4|]. split.
    + intros a Ha Hb. cbn in Hb. apply list_elem_of_singleton in Hb. subst a.
      apply list_elem_of_fmap in Ha. destruct Ha as (e & He & Hin).
      eapply Forall_forall in L3; [|exact Hin]. cbn in L3. lia.
    + cbn. apply NoDup_singleton.
Qed.

(** Taking the head of the queue puts it in flight. *)
Lemma ledger_dequeue (e : Event) (q : list Event) (s : State) :
  events s = e :: q -> ledger [] s -> ledger [e] (set_events q s).
Proof.
  intros He (L1 & L2 & L3 & L4). unfold ledger. cbn.
  rewrite He in L1. by repeat split.
Qed.

(** [Event_free] closes the entry of the event in flight. *)
Lemma ledger_free (e : Event) (s : State) :
  ledger [e] s -> ledger [] (Event_free e s).
Proof.
  intros (L1 & L2 & L3 & L4). unfold ledger, Event_free.
  fold (owns_payload e).
  destruct (owns_payload e) eqn:Ho; trace_simpl; rewrite filter_app, L2;
    (repeat split; [by rewrite L1, <- app_assoc| |done|done]).
  - rewrite filter_cons_True by (rewrite Ho; exact I). by rewrite filter_nil.
  - rewrite filter_cons_False by (rewrite Ho; exact id). by rewrite filter_nil, app_nil_r.
Qed.

Lemma exec_ledger (fl : list Event) (p : Prog U) : forall s s',
  exec p s = Done s' -> ledger fl s -> ledger fl s'.
Proof.
  induction p as [u|sd ty d dt k IH|sd ty d dt k IH|d dt fn k IH|h k IH|h k IH
                 |h k IH|h k IH|k IH]; intros s s' H L; cbn in H.
  - injection H as <-. exact L.
  - eapply IH; [exact H|]. by apply (ledger_emit_new fl sd ty d dt).
  - eapply IH; [exact H|]. by apply (ledger_emit_new fl sd ty d dt).
  - destruct (EventHandler_new d dt fn s) as [[a s1]| |] eqn:E; [|discriminate..].
    cbn in H. eapply IH; [exact H|].
    eapply ledger_kept; [|exact L]. eapply handler_new_keeps_events, E.
  - destruct (EventHandler_incref h s) as [s1| |] eqn:E; [|discriminate..].
    cbn in H. eapply IH; [exact H|].
    eapply ledger_kept; [|exact L]. eapply incref_keeps_events, E.
  - destruct (EventHandler_decref h s) as [s1| |] eqn:E; [|discriminate..].
    cbn in H. eapply IH; [exact H|].
    eapply ledger_kept; [|exact L]. eapply decref_keeps_events, E.
  - eapply IH; [exact H|]. exact L.
  - eapply IH; [exact H|]. by apply (ledger_emit_new fl 0 RemoveHandlerEventTypeId h 0).
  - eapply IH; [exact H|]. by apply (ledger_emit_new fl 0 BreakLoopEventTypeId 0 0).
Qed.

Lemma invoke_ledger (fl : list Event) (h : Z) (e : Event) (s s' : State) :
  EventHandler_handleEvent h e s = Done s' -> ledger fl s -> ledger fl s'.
Proof.
  unfold EventHandler_handleEvent. destruct (heap s !! h) as [r|]; [|discriminate].
  destruct (handler r =? 0); [discriminate|]. intros H L.
  eapply exec_ledger; [exact H|]. eapply ledger_kept; [|exact L].
  repeat split; by trace_simpl.
Qed.

Lemma broadcast_ledger (fl : list Event) (e : Event) (fuel : nat) :
  forall en s s', broadcast fuel en e s = Done s' -> ledger fl s -> ledger fl s'.
Proof.
  induction fuel as [|fuel IH]; intros en s s' H L; [discriminate|].
  cbn [broadcast] in H.
  destruct (EventHandlerEnumerator_getNextHandler en s) as [h en'].
  destruct (h =? 0); [by injection H as <-|].
  destruct (EventHandler_handleEvent h e s) as [s1| |] eqn:E; [|discriminate..].
  cbn [bind] in H. eapply IH; [exact H|]. eapply invoke_ledger; eassumption.
Qed.

Lemma system_handleEvent_keeps_events (e : Event) (s s1 : State) (act : EventSystemAction) :
  EventSystem_handleEvent e s = Done (act, s1) -> keeps_events s s1.
Proof.
  unfold EventSystem_handleEvent.
  destruct (type e =? BreakLoopEventTypeId); [by intros [= _ <-]|].
  destruct (type e =? RemoveHandlerEventTypeId); [|by intros [= _ <-]].
  destruct (negb (data e =? 0)); [|by intros [= _ <-]].
  destruct (EventHandler_decref (data e) _) as [s2| |] eqn:E; [|discriminate..].
  cbn. intros [= _ <-]. apply decref_keeps_events in E. exact E.
Qed.

(** A turn of the drain loop destroys the event it was given: whether the
    event was consumed by the system or broadcast, its entry is closed. *)
Lemma dispatch_ledger (fuel : nat) (e : Event) (b r : bool) (s s' : State) :
  dispatch fuel e b s = Done (r, s') -> ledger [e] s -> ledger [] s'.
Proof.
  unfold dispatch. intros H L.
  destruct (EventSystem_handleEvent e s) as [[act s1]| |] eqn:E; [|discriminate..].
  cbn [bind] in H. apply system_handleEvent_keeps_events in E.
  pose proof (ledger_kept _ _ _ E L) as L1.
  destruct (decide (act = EventSystemActionExit)) as [_|_].
  - injection H as _ <-. apply ledger_free.
    by apply (ledger_emit_new [e] 0 ExitEventTypeId 0 0).
  - destruct (broadcast fuel EventSystem_getHandlers e s1) as [s2| |] eqn:B;
      [|discriminate..].
    cbn in H. injection H as _ <-. apply ledger_free.
    eapply broadcast_ledger; eassumption.
Qed.

(** The drain loop ends with the queue empty and every entry closed. *)
Lemma drain_ledger (fuel : nat) : forall (b r : bool) (s s' : State),
  drain fuel b s = Done (r, s') -> ledger [] s -> ledger [] s' /\ events s' = [].
Proof.
  induction fuel as [|fuel IH]; intros b r s s' H L; [discriminate|].
  cbn [drain] in H. unfold EventSystem_getNextEvent, Queue_size, Queue_dequeue in H.
  destruct (events s) as [|e q] eqn:Hq; cbn in H.
  - injection H as _ <-. done.
  - destruct (dispatch fuel e b (set_events q s)) as [[r1 s2]| |] eqn:D;
      [|discriminate..].
    cbn in H. eapply IH; [exact H|].
    eapply dispatch_ledger; [exact D|]. by apply ledger_dequeue.
Qed.

Lemma pace_keeps_events (current : Clock) (s : State) :
  keeps_events s (pace current s).
Proof.
  unfold pace. cbn. destruct (PrimFloat.ltb _ _); repeat split; by trace_simpl.
Qed.

Lemma frames_ledger (fuel : nat) : forall (lastTicks : Clock) (s s' : State),
  frames fuel lastTicks s = Done s' -> ledger [] s -> ledger [] s' /\ events s' = [].
Proof.
  induction fuel as [|fuel IH]; intros lastTicks s s' H L; [discriminate|].
  cbn [frames] in H. cbn [now] in H.
  set (s2 := set_elapsedMillis _ _) in H.
  assert (L2 : ledger [] s2) by (eapply ledger_kept; [|exact L]; by repeat split).
  pose proof (ledger_emit_new [] 0 UpdateEventTypeId elapsedMillis_addr 0 s2 L2) as L3.
  destruct (Event_new 0 UpdateEventTypeId elapsedMillis_addr 0 s2) as [u s3].
  cbn [fst snd] in L3.
  destruct (drain (S fuel) true (EventSystem_emit u s3)) as [[r s4]| |] eqn:D;
    [|discriminate..].
  cbn [bind] in H. apply drain_ledger in D; [|exact L3]. destruct D as [L4 E4].
  pose proof (pace_keeps_events (Clock_now (ticks s)) s4) as K.
  destruct r.
  - eapply IH; [exact H|]. eapply ledger_kept; eassumption.
  - injection H as <-. split; [eapply ledger_kept; eassumption|].
    destruct K as (-> & _). exact E4.
Qed.

Lemma loop_ledger (fuel : nat) (s s' : State) :
  EventSystem_loop fuel s = Done s' -> ledger [] s -> ledger [] s' /\ events s' = [].
Proof.
  unfold EventSystem_loop. intros H L.
  pose proof (ledger_emit_new [] 0 StartEventTypeId 0 0 s L) as L1.
  destruct (Event_new 0 StartEventTypeId 0 0 s) as [e s1]. cbn [fst snd] in L1.
  cbn [now] in H. eapply frames_ledger; [exact H|].
  eapply ledger_kept; [|exact L1]. by repeat split.
Qed.


Lemma cleanup_handlers_keeps_events (l : list Z) : forall s s',
  cleanup_handlers l s = Done s' -> keeps_events s s'.
Proof.
  induction l as [|h l IH]; intros s s' H; cbn in H.
  - injection H as <-. apply keeps_events_refl.
  - destruct (EventHandler_decref h s) as [s1| |] eqn:E; [|discriminate..].
    cbn in H. apply IH in H. apply decref_keeps_events in E.
    destruct E as (? & ? & ? & ? & ?), H as (? & ? & ? & ? & ?).
    repeat split; try congruence. lia.
Qed.





(** ** Draining a queue over handlers with quiet callbacks *)

Lemma deliveries_app (hs : list Z) (es1 es2 : list Event) :
  deliveries hs (es1 ++ es2) = deliveries hs es1 ++ deliveries hs es2.
Proof. induction es1 as [|e es1 IH]; cbn; [done|]. by rewrite IH, app_assoc. Qed.

Lemma fresh_events_S (ty b : Z) (k : nat) :
  fresh_events ty b (S k)
  = {| self := b; sender := 0; type := ty; data := 0; destructor := 0 |}
      :: fresh_events ty (b + 1) k.
Proof.
  unfold fresh_events. cbn [seq fmap list_fmap]. rewrite Z.add_0_r. f_equal.
  rewrite <- fmap_S_seq, <- list_fmap_compose. apply list_fmap_ext.
  intros _ i _. cbn. f_equal. lia.
Qed.

Lemma fresh_events_snoc (ty b : Z) (k : nat) :
  fresh_events ty b (S k)
  = fresh_events ty b k
      ++ [{| self := b + Z.of_nat k; sender := 0; type := ty; data := 0;
             destructor := 0 |}].
Proof. unfold fresh_events. by rewrite seq_S, fmap_app. Qed.

Lemma fresh_events_type (ty b : Z) (k : nat) :
  type <$> fresh_events ty b k = replicate k ty.
Proof.
  revert b. induction k as [|k IH]; intros b; [done|].
  rewrite fresh_events_S. cbn. by rewrite IH.
Qed.

Lemma breaks_app (q1 q2 : list Event) : breaks (q1 ++ q2) = (breaks q1 + breaks q2)%nat.
Proof. unfold breaks. by rewrite filter_app, length_app. Qed.

Lemma breaks_exit (b : Z) (k : nat) :
  breaks (fresh_events ExitEventTypeId b k) = 0%nat.
Proof.
  revert b. induction k as [|k IH]; intros b; [done|].
  rewrite fresh_events_S. unfold breaks. rewrite filter_cons_False; [apply IH|].
  cbn. unfold BreakLoopEventTypeId. lia.
Qed.

(** A break-loop request is consumed by the system: it stops the loop and
    queues one [Exit] event, and reaches no callback. *)
Lemma dispatch_break (fuel : nat) (e : Event) (b : bool) (s : State) :
  type e = BreakLoopEventTypeId ->
  exists s', dispatch fuel e b s = Done (false, s')
    /\ handlers s' = handlers s /\ heap s' = heap s /\ ticks s' = ticks s
    /\ events s' = events s ++ fresh_events ExitEventTypeId (brk s) 1
    /\ brk s' = brk s + 1
    /\ calls (trace s') = calls (trace s).
Proof.
  intros Hty. unfold dispatch, EventSystem_handleEvent. rewrite Hty, Z.eqb_refl.
  cbn. eexists. split; [reflexivity|]. unfold Event_free.
  destruct (negb _ && negb _); trace_simpl; by rewrite Z.add_0_r.
Qed.

(** Any other event that is not a remove-handler request goes to every
    handler, in order, and nothing else changes. *)
Lemma dispatch_tame (fuel : nat) (e : Event) (b : bool) (s : State) :
  type e <> BreakLoopEventTypeId -> type e <> RemoveHandlerEventTypeId ->
  Forall (tame (heap s)) (handlers s) ->
  (length (handlers s) < fuel)%nat ->
  exists s', dispatch fuel e b s = Done (b, s')
    /\ same_system s s'
    /\ calls (trace s') = calls (trace s) ++ ((fun h => (h, e)) <$> handlers s).
Proof.
  intros Hnb Hnr Hall Hfuel. unfold dispatch, EventSystem_handleEvent.
  destruct (Z.eqb_spec (type e) BreakLoopEventTypeId) as [?|_]; [done|].
  destruct (Z.eqb_spec (type e) RemoveHandlerEventTypeId) as [?|_]; [done|].
  cbn [bind]. destruct (decide _) as [?|_]; [done|].
  destruct (broadcast_tame e fuel 0 s Hall) as (s1 & Hrun & Hsame & Hc & _).
  { by rewrite drop_0. }
  unfold EventSystem_getHandlers, EventHandlerEnumerator_new. rewrite Hrun. cbn [bind].
  eexists. split; [reflexivity|]. rewrite drop_0 in Hc.
  destruct Hsame as (? & ? & ? & ? & ? & ?). unfold Event_free.
  destruct (negb _ && negb _); (split; [by repeat split|]); trace_simpl; exact Hc.
Qed.

(** The drain loop over tame handlers, on a queue without remove-handler
    requests: every event that is not a break-loop request is delivered to
    every handler, in queue order; then come as many [Exit] events as there
    were break-loop requests; and the loop is told to stop iff there was
    one. *)
Lemma drain_tame (n : nat) : forall (q : list Event) (b : bool) (s : State) (fuel : nat),
  events s = q ->
  Forall (fun e => type e <> RemoveHandlerEventTypeId) q ->
  Forall (tame (heap s)) (handlers s) ->
  (length q + breaks q <= n)%nat ->
  (n + length (handlers s) + 1 < fuel)%nat ->
  exists s', drain fuel b s = Done (b && (breaks q =? 0)%nat, s')
    /\ handlers s' = handlers s /\ heap s' = heap s /\ events s' = []
    /\ ticks s' = ticks s
    /\ calls (trace s') = calls (trace s)
         ++ deliveries (handlers s)
              (filter (fun e => type e <> BreakLoopEventTypeId) q
               ++ fresh_events ExitEventTypeId (brk s) (breaks q)).
Proof.
  induction n as [|n IH]; intros q b s fuel Hq Hnr Hall Hn Hfuel;
    (destruct fuel as [|fuel]; [lia|]);
    cbn [drain]; unfold EventSystem_getNextEvent, Queue_size, Queue_dequeue;
    rewrite Hq; (destruct q as [|e q]; [|try (cbn in Hn; lia)]).
  1,2: cbn; exists s; rewrite andb_true_r, app_nil_r; by repeat split.
  cbn [length Nat.eqb]. apply Forall_cons in Hnr as [Hnre Hnr].
  destruct (decide (type e = BreakLoopEventTypeId)) as [Hb|Hb].
  - destruct (dispatch_break fuel e b (set_events q s) Hb)
      as (s1 & -> & Hh1 & Hp1 & Ht1 & He1 & Hb1 & Hc1).
    cbn [bind].
    cbn [handlers heap ticks events brk trace set_events] in He1, Hb1, Hh1, Hp1, Ht1, Hc1.
    assert (Hbr : breaks (e :: q) = S (breaks q)).
    { unfold breaks. by rewrite filter_cons_True. }
    rewrite Hbr in Hn |- *.
    destruct (IH (q ++ fresh_events ExitEventTypeId (brk s) 1) false s1 fuel)
      as (s' & Hrun & Hh & Hp & He & Ht & Hc).
    { exact He1. }
    { apply Forall_app. split; [exact Hnr|]. repeat constructor. cbn.
      unfold RemoveHandlerEventTypeId. lia. }
    { by rewrite Hp1, Hh1. }
    { rewrite length_app, breaks_app, breaks_exit. cbn in Hn |- *. lia. }
    { rewrite Hh1. lia. }
    exists s'. rewrite andb_false_r. rewrite breaks_app in Hrun, Hc.
    rewrite breaks_exit, Nat.add_0_r in Hrun, Hc. cbn [andb] in Hrun.
    split; [exact Hrun|]. repeat split; try congruence.
    rewrite Hc, Hc1, Hh1, Hb1. f_equal. f_equal.
    rewrite filter_cons_False by (intros ?; done).
    rewrite filter_app, <- app_assoc. f_equal.
    rewrite !fresh_events_S.
    change (fresh_events ExitEventTypeId (brk s + 1) 0) with (@nil Event).
    rewrite filter_cons_True by (cbn; unfold BreakLoopEventTypeId; lia).
    by rewrite filter_nil.
  - destruct (dispatch_tame fuel e b (set_events q s) Hb Hnre)
      as (s1 & -> & Hsame & Hc1); [exact Hall|cbn; lia|].
    cbn [bind]. destruct Hsame as (Hh1 & He1 & Hp1 & Hb1 & Ht1 & _).
    cbn [handlers heap ticks events brk trace set_events] in Hh1, He1, Hp1, Hb1, Ht1, Hc1.
    assert (Hbr : breaks (e :: q) = breaks q).
    { unfold breaks. by rewrite filter_cons_False. }
    rewrite Hbr in Hn |- *.
    destruct (IH q b s1 fuel) as (s' & Hrun & Hh & Hp & He & Ht & Hc);
      [done|done|by rewrite Hp1, Hh1|cbn in Hn; lia|rewrite Hh1; lia|].
    exists s'. split; [exact Hrun|]. repeat split; try congruence.
    rewrite Hc, Hc1, Hh1, Hb1. rewrite filter_cons_True by done.
    cbn. by rewrite <- !app_assoc.
Qed.

(** ** The main loop over handlers with quiet callbacks *)

(** With a stop request pending, the loop runs one frame and returns. *)
Lemma loop_tame (s : State) (fuel : nat) :
  public_tags_ok ->
  Forall (fun e => type e <> RemoveHandlerEventTypeId) (events s) ->
  Forall (tame (heap s)) (handlers s) ->
  (1 <= breaks (events s))%nat ->
  (length (events s) + breaks (events s) + length (handlers s) + 3 < fuel)%nat ->
  exists s', EventSystem_loop fuel s = Done s'
    /\ handlers s' = handlers s /\ heap s' = heap s /\ events s' = []
    /\ calls (trace s') = calls (trace s)
         ++ deliveries (handlers s)
              (filter (fun e => type e <> BreakLoopEventTypeId) (events s)
               ++ [start_event (brk s); update_event (brk s + 1)]
               ++ fresh_events ExitEventTypeId (brk s + 2) (breaks (events s))).
Proof.
  intros (Hs1 & Hs2 & Hu1 & Hu2) Hnr Hall Hk Hfuel.
  unfold EventSystem_loop. destruct fuel as [|fuel]; [lia|].
  cbn [Event_new malloc now fst snd frames].
  set (s3 := EventSystem_emit _ _).
  assert (Hq3 : events s3 =
    events s ++ [start_event (brk s); update_event (brk s + 1)]).
  { subst s3. cbn. unfold Queue_enqueue. by rewrite <- app_assoc. }
  assert (Hbr : breaks (events s3) = breaks (events s)).
  { rewrite Hq3, breaks_app. unfold breaks at 2.
    rewrite !filter_cons_False, filter_nil by done. cbn. lia. }
  destruct (drain_tame (length (events s3) + breaks (events s3))
              (events s3) true s3 (S fuel)) as (s4 & Hrun & Hh & Hp & He & Ht & Hc).
  { reflexivity. }
  { rewrite Hq3. apply Forall_app. split; [exact Hnr|]. by repeat constructor. }
  { exact Hall. }
  { lia. }
  { rewrite Hbr, Hq3, length_app. cbn in Hfuel |- *. lia. }
  rewrite Hrun. cbn [bind].
  destruct (Nat.eqb_spec (breaks (events s3)) 0) as [?|_]; [lia|]. cbn [andb].
  eexists. split; [reflexivity|].
  assert (Hpace : forall c s0, handlers (pace c s0) = handlers s0
    /\ heap (pace c s0) = heap s0 /\ events (pace c s0) = events s0
    /\ calls (trace (pace c s0)) = calls (trace s0)).
  { intros c s0. unfold pace. cbn. destruct (PrimFloat.ltb _ _); trace_simpl; done. }
  match goal with
  | |- context [pace ?c s4] => destruct (Hpace c s4) as (-> & -> & -> & ->)
  end.
  rewrite Hh, Hp, He, Hc, Hbr, Hq3. repeat split.
  subst s3. trace_simpl. do 2 f_equal.
  rewrite filter_app, <- app_assoc. f_equal.
  rewrite !filter_cons_True, filter_nil by done. cbn. do 3 f_equal. lia.
Qed.

(** [k] calls of [EventSystem_exit] queue [k] break-loop requests. *)
Lemma exit_requests (k : nat) (s : State) :
  handlers (Nat.iter k EventSystem_exit s) = handlers s
  /\ heap (Nat.iter k EventSystem_exit s) = heap s
  /\ brk (Nat.iter k EventSystem_exit s) = brk s + Z.of_nat k
  /\ events (Nat.iter k EventSystem_exit s)
     = events s ++ fresh_events BreakLoopEventTypeId (brk s) k
  /\ calls (trace (Nat.iter k EventSystem_exit s)) = calls (trace s).
Proof.
  induction k as [|k (Hh & Hp & Hb & He & Hc)].
  - cbn. rewrite Z.add_0_r, app_nil_r. done.
  - change (Nat.iter (S k) EventSystem_exit s)
      with (EventSystem_exit (Nat.iter k EventSystem_exit s)).
    set (s1 := Nat.iter k EventSystem_exit s) in *. clearbody s1.
    rewrite fresh_events_snoc, app_assoc, <- He, <- Hh, <- Hp, <- Hc.
    replace (brk s + Z.of_nat (S k)) with (brk s1 + 1) by lia.
    rewrite <- Hb. unfold EventSystem_exit. by trace_simpl.
Qed.

Lemma breaks_fresh (b : Z) (k : nat) :
  breaks (fresh_events BreakLoopEventTypeId b k) = k
  /\ filter (fun e => type e <> BreakLoopEventTypeId)
       (fresh_events BreakLoopEventTypeId b k) = []
  /\ Forall (fun e => type e <> RemoveHandlerEventTypeId)
       (fresh_events BreakLoopEventTypeId b k).
Proof.
  revert b. induction k as [|k IH]; intros b; [by repeat split|].
  rewrite fresh_events_S. destruct (IH (b + 1)) as (H1 & H2 & H3).
  unfold breaks in *. rewrite filter_cons_True by done.
  rewrite filter_cons_False by (cbn; congruence). cbn. rewrite H1.
  repeat split; [exact H2|]. constructor; [|exact H3].
  cbn. unfold RemoveHandlerEventTypeId, BreakLoopEventTypeId. lia.
Qed.

Lemma breaks_plain (q : list Event) :
  Forall plain q ->
  breaks q = 0%nat
  /\ filter (fun e => type e <> BreakLoopEventTypeId) q = q.
Proof.
  unfold breaks. induction 1 as [|e q [_ He0] _ [IH1 IH2]]; [done|].
  rewrite filter_cons_False by done. rewrite filter_cons_True by done.
  by rewrite IH2.
Qed.

(** C10: after [k >= 1] calls of [EventSystem_exit], the loop returns, and
    over handlers with quiet callbacks what it broadcast is: the client
    events that were pending, then one [Start], one [Update], and exactly
    [k] [Exit] events -- one for each break-loop request, also for those
    met when the loop was already stopping. *)
Theorem each_break_request_broadcasts_one_exit (k : nat) (s0 : State) (fuel : nat) :
  public_tags_ok ->
  Forall plain (events s0) ->
  Forall (tame (heap s0)) (handlers s0) ->
  (1 <= k)%nat ->
  (length (events s0) + 2 * k + length (handlers s0) + 3 < fuel)%nat ->
  exists s' es,
    EventSystem_loop fuel (Nat.iter k EventSystem_exit s0) = Done s'
    /\ calls (trace s') = calls (trace s0)
         ++ deliveries (handlers s0) (events s0 ++ es)
    /\ type <$> es
       = StartEventTypeId :: UpdateEventTypeId :: replicate k ExitEventTypeId.
Proof.
  intros Htags Hplain Hall Hk Hfuel.
  destruct (exit_requests k s0) as (Hh & Hp & Hb & He & Hc).
  destruct (breaks_fresh (brk s0) k) as (B1 & B2 & B3).
  assert (Hbr0 : breaks (events s0) = 0%nat
    /\ filter (fun e => type e <> BreakLoopEventTypeId) (events s0) = events s0).
  { by apply breaks_plain. }
  destruct Hbr0 as [Hbr0 Hf0].
  destruct (loop_tame (Nat.iter k EventSystem_exit s0) fuel Htags)
    as (s' & Hrun & _ & _ & _ & Hcalls).
  { rewrite He. apply Forall_app. split; [|exact B3].
    eapply Forall_impl; [exact Hplain|]. by intros e []. }
  { by rewrite Hp, Hh. }
  { rewrite He, breaks_app, B1. lia. }
  { rewrite He, breaks_app, B1, Hbr0, Hh, length_app.
    unfold fresh_events. rewrite length_fmap, length_seq. lia. }
  eexists s', _. split; [exact Hrun|].
  rewrite Hcalls, Hc, Hh, He, filter_app, B2, Hf0, app_nil_r, breaks_app, B1, Hbr0.
  split; [reflexivity|].
  cbn [app fmap list_fmap type start_event update_event]. do 2 f_equal.
  apply fresh_events_type.
Qed.

(** C4: one handler with a quiet callback, [EventSystem_exit] called before
    [EventSystem_loop]: the loop returns, and the callback was entered
    exactly three times, with a [Start], an [Update] and an [Exit] event,
    in this order. *)
Theorem exit_before_loop_gives_start_update_exit (h : Z) (s0 : State) (fuel : nat) :
  public_tags_ok ->
  tame (heap s0) h ->
  (6 < fuel)%nat ->
  exists s' e1 e2 e3,
    EventSystem_loop fuel
      (EventSystem_exit (EventSystem_addHandler h (EventSystem_init s0))) = Done s'
    /\ calls (trace s') = calls (trace s0) ++ [(h, e1); (h, e2); (h, e3)]
    /\ type e1 = StartEventTypeId
    /\ type e2 = UpdateEventTypeId
    /\ type e3 = ExitEventTypeId.
Proof.
  intros Htags Htame Hfuel.
  set (s := EventSystem_exit _).
  assert (He : events s = fresh_events BreakLoopEventTypeId (brk s0) 1).
  { subst s. cbn. by rewrite Z.add_0_r. }
  assert (Hh : handlers s = [h]) by reflexivity.
  assert (Hp : heap s = heap s0) by reflexivity.
  assert (Hc : calls (trace s) = calls (trace s0)) by (subst s; by trace_simpl).
  destruct (breaks_fresh (brk s0) 1) as (B1 & B2 & B3).
  destruct (loop_tame s fuel Htags) as (s' & Hrun & _ & _ & _ & Hcalls).
  { by rewrite He. }
  { rewrite Hh, Hp. constructor; [exact Htame|constructor]. }
  { rewrite He, B1. lia. }
  { rewrite He, B1, Hh. cbn. lia. }
  eexists s', _, _, _. split; [exact Hrun|].
  rewrite Hcalls, Hc, Hh, He, B1, B2. cbn. split; [reflexivity|]. done.
Qed.

(** ** Deferred removal *)

(** [EventSystem_removeHandler] only queues the request: the handler
    sequence and the handler records are as before. *)
Lemma removeHandler_is_deferred (h : Z) (s : State) :
  handlers (EventSystem_removeHandler h s) = handlers s
  /\ heap (EventSystem_removeHandler h s) = heap s
  /\ events (EventSystem_removeHandler h s)
     = events s ++ [{| self := brk s; sender := NULL;
                       type := RemoveHandlerEventTypeId; data := h;
                       destructor := NULL |}].
Proof. by repeat split. Qed.

Lemma List_remove_absent (l : list Z) (h : Z) : h ∉ l -> List_remove l h = l.
Proof.
  induction l as [|y l IH]; [done|]. intros [Hne Hn]%not_elem_of_cons. cbn.
  destruct (decide (y = h)) as [->|_]; [done|]. f_equal. by apply IH.
Qed.



(** ** Frame pacing *)

(** The budget is the integer quotient [1000 / 30 = 33], and the sleep
    requested is the budget minus the measured time. *)
Lemma pace_requests_remainder (current : Clock) (s : State) :
  millisPerFrame = 33%float
  /\ trace (pace current s)
     = trace s
       ++ (let millis := Clock_diffMillis (Clock_now (ticks s)) current in
           if PrimFloat.ltb millis 33 then [OSleep (PrimFloat.sub 33 millis)]
           else []).
Proof.
  split; [reflexivity|]. unfold pace. cbn [now].
  change millisPerFrame with 33%float.
  destruct (PrimFloat.ltb _ _); cbn; [done|by rewrite app_nil_r].
Qed.

(** ** Retain and release *)

(** X1: for a live handler whose count is not zero, a retain followed by a
    release gives back the very state it started from: the count is as
    before, nothing is destroyed and nothing is observed. *)
Theorem retain_then_release_is_identity (p : Z) (s : State) (h : EventHandler) :
  heap s !! p = Some h -> _refCount h <> 0 ->
  exists s1, EventHandler_incref p s = Done s1
    /\ heap s1 !! p = Some (with_refCount (_refCount h + 1) h)
    /\ EventHandler_decref p s1 = Done s.
Proof.
  intros Hp Hn. unfold EventHandler_incref. rewrite Hp.
  eexists. split; [reflexivity|]. split; [cbn; apply lookup_insert_eq|].
  unfold EventHandler_decref. cbn [heap set_heap]. rewrite lookup_insert_eq.
  cbn [_refCount with_refCount].
  destruct (Z.eqb_spec 0 (_refCount h + 1 - 1)) as [?|_]; [lia|].
  f_equal. rewrite insert_insert_eq.
  replace (with_refCount (_refCount h + 1 - 1) (with_refCount (_refCount h + 1) h))
    with h by (destruct h; unfold with_refCount; cbn; f_equal; lia).
  rewrite insert_id by done. by destruct s.
Qed.

(** ** What the public interface does when called from a callback *)

Lemma exec_queue_grows (p : Prog U) : forall s s',
  exec p s = Done s' -> exists queued, events s' = events s ++ queued.
Proof.
  assert (Hnew : forall sd ty d dt s, exists q,
    events (EventSystem_emit (fst (Event_new sd ty d dt s))
                             (snd (Event_new sd ty d dt s))) = events s ++ q).
  { intros. eexists. reflexivity. }
  assert (Htrans : forall (s1 s2 s3 : State),
    (exists q, events s2 = events s1 ++ q) -> (exists q, events s3 = events s2 ++ q) ->
    exists q, events s3 = events s1 ++ q).
  { intros s1 s2 s3 [q1 H1] [q2 H2]. exists (q1 ++ q2). by rewrite H2, H1, app_assoc. }
  induction p as [u|sd ty d dt k IH|sd ty d dt k IH|d dt fn k IH|h k IH|h k IH
                 |h k IH|h k IH|k IH]; intros s s' H; cbn in H.
  - injection H as <-. exists []. by rewrite app_nil_r.
  - eapply Htrans; [apply (Hnew sd ty d dt s)|]. by apply IH.
  - eapply Htrans; [apply (Hnew sd ty d dt s)|]. by apply IH.
  - destruct (EventHandler_new d dt fn s) as [[a s1]| |] eqn:E; [|discriminate..].
    cbn in H. apply IH in H. apply handler_new_keeps_events in E.
    destruct E as (E & _). by rewrite E in H.
  - destruct (EventHandler_incref h s) as [s1| |] eqn:E; [|discriminate..].
    cbn in H. apply IH in H. apply incref_keeps_events in E.
    destruct E as (E & _). by rewrite E in H.
  - destruct (EventHandler_decref h s) as [s1| |] eqn:E; [|discriminate..].
    cbn in H. apply IH in H. apply decref_keeps_events in E.
    destruct E as (E & _). by rewrite E in H.
  - by apply IH in H.
  - eapply Htrans; [apply (Hnew 0 RemoveHandlerEventTypeId h 0 s)|]. by apply IH.
  - eapply Htrans; [apply (Hnew 0 BreakLoopEventTypeId 0 0 s)|]. by apply IH.
Qed.

(** X2: whatever a callback body does through the public interface, while
    it runs no callback is entered, the handler sequence loses no entry
    and is only appended to, and the pending queue loses no event and is
    only appended to: emission, removal and stop requests are all
    deferred to the drain loop. *)
Theorem client_calls_are_deferred (p : Prog U) (s s' : State) :
  exec p s = Done s' ->
  calls (trace s') = calls (trace s)
  /\ (exists added, handlers s' = handlers s ++ added)
  /\ (exists queued, events s' = events s ++ queued).
Proof.
  intros H. destruct (exec_extends p s s' H) as [Hc Hh].
  split; [exact Hc|]. split; [exact Hh|]. by apply (exec_queue_grows p).
Qed.

(** ** Cleanup *)

Lemma cleanup_events_spec (q : list Event) : forall s,
  heap (cleanup_events q s) = heap s
  /\ handlers (cleanup_events q s) = handlers s
  /\ created (trace (cleanup_events q s)) = created (trace s)
  /\ calls (trace (cleanup_events q s)) = calls (trace s)
  /\ freed (trace (cleanup_events q s)) = freed (trace s) ++ q
  /\ destructed (trace (cleanup_events q s))
     = destructed (trace s) ++ filter (fun e => owns_payload e) q.
Proof.
  induction q as [|e q IH]; intros s.
  - cbn. rewrite !app_nil_r. by repeat split.
  - cbn [cleanup_events].
    destruct (IH (Event_free e (set_events q s))) as (-> & -> & -> & -> & -> & ->).
    unfold Event_free. fold (owns_payload e). rewrite filter_cons.
    destruct (owns_payload e) eqn:Ho.
    + rewrite decide_True by exact I. trace_simpl.
      rewrite <- !app_assoc. by repeat split.
    + rewrite decide_False by exact id. trace_simpl.
      rewrite <- !app_assoc. by repeat split.
Qed.

Lemma cleanup_events_empties (q : list Event) (s : State) :
  events (cleanup_events q s) = match q with [] => events s | _ => [] end.
Proof.
  revert s. induction q as [|e q IH]; intros s; [done|].
  cbn [cleanup_events]. rewrite IH. destruct q; [|done].
  unfold Event_free. by destruct (negb _ && negb _).
Qed.

Lemma cleanup_handlers_trace (l : list Z) : forall s s',
  cleanup_handlers l s = Done s' ->
  calls (trace s') = calls (trace s) /\ handlers s' = handlers s.
Proof.
  induction l as [|h l IH]; intros s s' H; cbn in H.
  - by injection H as <-.
  - destruct (EventHandler_decref h s) as [s1| |] eqn:E; [|discriminate..].
    cbn in H. apply IH in H. apply decref_handlers in E.
    destruct H as [-> ->], E as [-> ->]. done.
Qed.

(** X6: [EventSystem_cleanup] destroys the pending events in queue order
    without dispatching them: every pending event is freed, those that
    own a payload have their destructor called, no callback is entered,
    no event is built, and both containers end empty. *)
Theorem cleanup_destroys_pending_events_undispatched (s s' : State) :
  EventSystem_cleanup s = Done s' ->
  freed (trace s') = freed (trace s) ++ events s
  /\ destructed (trace s')
     = destructed (trace s) ++ filter (fun e => owns_payload e) (events s)
  /\ calls (trace s') = calls (trace s)
  /\ created (trace s') = created (trace s)
  /\ events s' = [] /\ handlers s' = [].
Proof.
  unfold EventSystem_cleanup. intros H.
  destruct (cleanup_handlers _ _) as [s1| |] eqn:E; [|discriminate..].
  cbn in H. injection H as <-.
  destruct (cleanup_events_spec (events s) s) as (_ & _ & Hn & Hc & Hf & Hd).
  pose proof (cleanup_events_empties (events s) s) as Hq.
  assert (Hq' : events (cleanup_events (events s) s) = []) by (rewrite Hq; by destruct (events s)).
  pose proof (cleanup_handlers_keeps_events _ _ _ E) as (He1 & Hn1 & Hf1 & Hd1 & _).
  apply cleanup_handlers_trace in E. destruct E as [Hc1 _].
  cbn [trace set_handlers events handlers].
  rewrite Hf1, Hd1, Hc1, Hn1, He1, Hf, Hd, Hc, Hn, Hq'. by repeat split.
Qed.

Lemma decref_heap (p : Z) (s s' : State) :
  EventHandler_decref p s = Done s' ->
  exists r, heap s !! p = Some r
    /\ heap s' !! p = released r
    /\ (forall q, q <> p -> heap s' !! q = heap s !! q)
    /\ handlers s' = handlers s /\ events s' = events s.
Proof.
  unfold EventHandler_decref, released.
  destruct (heap s !! p) as [r|] eqn:Hr; [|discriminate].
  intros H. exists r. split; [done|].
  destruct (0 =? _refCount r - 1); injection H as <-.
  - destruct (negb _ && negb _); cbn;
      (split; [apply lookup_delete_eq|]);
      (split; [intros q Hq; by apply lookup_delete_ne|done]).
  - cbn. split; [apply lookup_insert_eq|].
    split; [intros q Hq; by apply lookup_insert_ne|done].
Qed.

Lemma decref_live (p : Z) (s : State) :
  is_Some (heap s !! p) -> exists s', EventHandler_decref p s = Done s'.
Proof.
  intros [r Hr]. unfold EventHandler_decref. rewrite Hr.
  destruct (0 =? _refCount r - 1); eauto.
Qed.

Lemma cleanup_handlers_spec (l : list Z) : forall s,
  NoDup l -> (forall h, h ∈ l -> is_Some (heap s !! h)) ->
  exists s', cleanup_handlers l s = Done s'
    /\ (forall h r, h ∈ l -> heap s !! h = Some r -> heap s' !! h = released r)
    /\ (forall h, h ∉ l -> heap s' !! h = heap s !! h).
Proof.
  induction l as [|h l IH]; intros s Hnd Hlive.
  - exists s. split; [done|]. split; [|done]. by intros h r ?%elem_of_nil.
  - apply NoDup_cons in Hnd as [Hh Hnd]. cbn [cleanup_handlers].
    destruct (decref_live h s) as [s1 E]; [apply Hlive; left|].
    rewrite E. cbn [bind].
    destruct (decref_heap _ _ _ E) as (r0 & Hr0 & Hrel & Hoth & _).
    destruct (IH s1 Hnd) as (s' & Hrun & Hin & Hout).
    { intros h' Hh'. rewrite Hoth by (intros ->; done). apply Hlive. by right. }
    exists s'. split; [exact Hrun|]. split.
    + intros h' r [->|Hh']%elem_of_cons Hr.
      * rewrite Hout by done. rewrite Hrel. congruence.
      * apply Hin; [done|]. rewrite Hoth by (intros ->; done). done.
    + intros h' [Hne Hh']%not_elem_of_cons. rewrite Hout by done. by apply Hoth.
Qed.

(** X7: when the registered handlers are distinct and live,
    [EventSystem_cleanup] completes and releases exactly one reference of
    each of them: a handler held by nobody else is destroyed, a handler
    with other owners stays live with its count lowered by one, and a
    record that is not registered is not touched. *)
Theorem cleanup_releases_each_handler_once (s : State) :
  NoDup (handlers s) ->
  (forall h, h ∈ handlers s -> is_Some (heap s !! h)) ->
  exists s', EventSystem_cleanup s = Done s'
    /\ (forall h r, h ∈ handlers s -> heap s !! h = Some r ->
          heap s' !! h = released r)
    /\ (forall h, h ∉ handlers s -> heap s' !! h = heap s !! h).
Proof.
  intros Hnd Hlive. unfold EventSystem_cleanup.
  destruct (cleanup_events_spec (events s) s) as (Hp & Hh & _).
  destruct (cleanup_handlers_spec (handlers s) (cleanup_events (events s) s) Hnd)
    as (s1 & Hrun & Hin & Hout).
  { intros h Hin. rewrite Hp. by apply Hlive. }
  rewrite Hrun. cbn [bind]. eexists. split; [reflexivity|].
  cbn [heap set_handlers]. split.
  - intros h r Hh' Hr. apply Hin; [done|]. by rewrite Hp.
  - intros h Hh'. rewrite Hout by done. by rewrite Hp.
Qed.

(** ** Processing a removal request *)



(** ** An invariant of the reference counts *)

Lemma incref_counts (p : Z) (s s' : State) :
  EventHandler_incref p s = Done s' ->
  counts_positive (heap s) -> counts_positive (heap s').
Proof.
  unfold EventHandler_incref. destruct (heap s !! p) as [r|] eqn:Hr; [|discriminate].
  intros [= <-] Hpos q r'. cbn. destruct (decide (p = q)) as [->|Hne].
  - rewrite lookup_insert_eq. intros [= <-]. cbn. specialize (Hpos _ _ Hr). lia.
  - rewrite lookup_insert_ne by done. apply Hpos.
Qed.

Lemma decref_counts (p : Z) (s s' : State) :
  EventHandler_decref p s = Done s' ->
  counts_positive (heap s) -> counts_positive (heap s').
Proof.
  intros H Hpos q r'. destruct (decref_heap _ _ _ H) as (r & Hr & Hrel & Hoth & _).
  destruct (decide (q = p)) as [->|Hne].
  - rewrite Hrel. unfold released.
    destruct (Z.eqb_spec 0 (_refCount r - 1)) as [?|Hn]; [discriminate|].
    intros [= <-]. cbn. specialize (Hpos _ _ Hr). lia.
  - rewrite Hoth by done. apply Hpos.
Qed.

Lemma handler_new_counts (d dt fn : Z) (s s' : State) (a : Z) :
  EventHandler_new d dt fn s = Done (a, s') ->
  counts_positive (heap s) -> counts_positive (heap s').
Proof.
  unfold EventHandler_new. destruct (negb (d =? 0) && (dt =? 0)); [discriminate|].
  cbn. intros [= <- <-] Hpos q r'. cbn. destruct (decide (brk s = q)) as [->|Hne].
  - rewrite lookup_insert_eq. by intros [= <-].
  - rewrite lookup_insert_ne by done. apply Hpos.
Qed.

Lemma exec_counts (p : Prog U) : forall s s',
  exec p s = Done s' -> counts_positive (heap s) -> counts_positive (heap s').
Proof.
  induction p as [u|sd ty d dt k IH|sd ty d dt k IH|d dt fn k IH|h k IH|h k IH
                 |h k IH|h k IH|k IH]; intros s s' H Hpos; cbn in H.
  - by injection H as <-.
  - by apply IH in H.
  - by apply IH in H.
  - destruct (EventHandler_new d dt fn s) as [[a s1]| |] eqn:E; [|discriminate..].
    cbn in H. eapply IH; [exact H|]. eapply handler_new_counts; eassumption.
  - destruct (EventHandler_incref h s) as [s1| |] eqn:E; [|discriminate..].
    cbn in H. eapply IH; [exact H|]. eapply incref_counts; eassumption.
  - destruct (EventHandler_decref h s) as [s1| |] eqn:E; [|discriminate..].
    cbn in H. eapply IH; [exact H|]. eapply decref_counts; eassumption.
  - by apply IH in H.
  - by apply IH in H.
  - by apply IH in H.
Qed.

Lemma broadcast_counts (e : Event) (fuel : nat) : forall en s s',
  broadcast fuel en e s = Done s' ->
  counts_positive (heap s) -> counts_positive (heap s').
Proof.
  induction fuel as [|fuel IH]; intros en s s' H Hpos; [discriminate|].
  cbn [broadcast] in H.
  destruct (EventHandlerEnumerator_getNextHandler en s) as [h en'].
  destruct (h =? 0); [by injection H as <-|].
  destruct (EventHandler_handleEvent h e s) as [s1| |] eqn:E; [|discriminate..].
  cbn [bind] in H. eapply IH; [exact H|].
  unfold EventHandler_handleEvent in E.
  destruct (heap s !! h) as [r|]; [|discriminate].
  destruct (handler r =? 0); [discriminate|].
  by apply exec_counts in E.
Qed.

Lemma dispatch_counts (fuel : nat) (e : Event) (b r : bool) (s s' : State) :
  dispatch fuel e b s = Done (r, s') ->
  counts_positive (heap s) -> counts_positive (heap s').
Proof.
  unfold dispatch. intros H Hpos.
  destruct (EventSystem_handleEvent e s) as [[act s1]| |] eqn:E; [|discriminate..].
  cbn [bind] in H.
  assert (Hpos1 : counts_positive (heap s1)).
  { unfold EventSystem_handleEvent in E.
    destruct (type e =? BreakLoopEventTypeId); [by injection E as _ <-|].
    destruct (type e =? RemoveHandlerEventTypeId); [|by injection E as _ <-].
    destruct (negb (data e =? 0)); [|by injection E as _ <-].
    destruct (EventHandler_decref (data e) _) as [s2| |] eqn:Hd; [|discriminate..].
    cbn in E. injection E as _ <-. by apply decref_counts in Hd. }
  assert (Hfree : forall s0, heap (Event_free e s0) = heap s0).
  { intros s0. unfold Event_free. by destruct (negb _ && negb _). }
  destruct (decide (act = EventSystemActionExit)) as [_|_].
  - injection H as _ <-. by rewrite Hfree.
  - destruct (broadcast fuel EventSystem_getHandlers e s1) as [s2| |] eqn:B;
      [|discriminate..].
    cbn in H. injection H as _ <-. rewrite Hfree. by apply broadcast_counts in B.
Qed.

Lemma drain_counts (fuel : nat) : forall (b r : bool) (s s' : State),
  drain fuel b s = Done (r, s') ->
  counts_positive (heap s) -> counts_positive (heap s').
Proof.
  induction fuel as [|fuel IH]; intros b r s s' H Hpos; [discriminate|].
  cbn [drain] in H. unfold EventSystem_getNextEvent, Queue_size, Queue_dequeue in H.
  destruct (events s) as [|e q]; cbn in H.
  - by injection H as _ <-.
  - destruct (dispatch fuel e b (set_events q s)) as [[r1 s2]| |] eqn:D;
      [|discriminate..].
    cbn in H. eapply IH; [exact H|]. by apply dispatch_counts in D.
Qed.

Lemma frames_counts (fuel : nat) : forall (lastTicks : Clock) (s s' : State),
  frames fuel lastTicks s = Done s' ->
  counts_positive (heap s) -> counts_positive (heap s').
Proof.
  induction fuel as [|fuel IH]; intros lastTicks s s' H Hpos; [discriminate|].
  cbn [frames] in H. cbn [now Event_new malloc] in H.
  destruct (drain (S fuel) true _) as [[r s4]| |] eqn:D; [|discriminate..].
  cbn [bind] in H. apply drain_counts in D; [|exact Hpos].
  assert (Hpace : forall c s0, heap (pace c s0) = heap s0).
  { intros c s0. unfold pace. cbn. by destruct (PrimFloat.ltb _ _). }
  destruct r.
  - eapply IH; [exact H|]. by rewrite Hpace.
  - injection H as <-. by rewrite Hpace.
Qed.

(** X8: no live record is ever left with a count below one.  If every
    live handler record has a count of at least one, this is still so
    after any callback body, after [EventSystem_loop] has returned, and
    after [EventSystem_cleanup]: a release that brings a count to zero
    takes the record away. *)
Theorem reference_counts_stay_positive (s : State) :
  counts_positive (heap s) ->
  (forall p s', exec p s = Done s' -> counts_positive (heap s'))
  /\ (forall fuel s', EventSystem_loop fuel s = Done s' -> counts_positive (heap s'))
  /\ (forall s', EventSystem_cleanup s = Done s' -> counts_positive (heap s')).
Proof.
  intros Hpos. split; [|split].
  - intros p s' H. by apply (exec_counts p s s').
  - intros fuel s' H. unfold EventSystem_loop in H. cbn [Event_new malloc now] in H.
    by apply frames_counts in H.
  - intros s' H. unfold EventSystem_cleanup in H.
    destruct (cleanup_handlers _ _) as [s1| |] eqn:E; [|discriminate..].
    cbn in H. injection H as <-. cbn [heap set_handlers].
    destruct (cleanup_events_spec (events s) s) as (Hp & _).
    rewrite <- Hp in Hpos. clear Hp. revert E Hpos.
    generalize (cleanup_events (events s) s). generalize (handlers s).
    intros l. induction l as [|h l IH]; intros s0 E Hpos0; cbn in E.
    + by injection E as <-.
    + destruct (EventHandler_decref h s0) as [s2| |] eqn:Hd; [|discriminate..].
      cbn in E. eapply IH; [exact E|]. by apply decref_counts in Hd.
Qed.

(** ** First in, first out *)

(** X3: the drain loop over live handlers with quiet callbacks, on a queue
    of client events: it completes, the events are delivered in queue
    order, each one to every handler in sequence order before the next
    one, the queue ends empty, and the loop is not told to stop. *)
Theorem drain_delivers_in_queue_order (b : bool) (s : State) (fuel : nat) :
  Forall plain (events s) ->
  Forall (tame (heap s)) (handlers s) ->
  (length (events s) + length (handlers s) + 1 < fuel)%nat ->
  exists s', drain fuel b s = Done (b, s')
    /\ events s' = [] /\ handlers s' = handlers s /\ heap s' = heap s
    /\ calls (trace s') = calls (trace s) ++ deliveries (handlers s) (events s).
Proof.
  intros Hplain Hall Hfuel.
  destruct (breaks_plain (events s) Hplain) as [Hb0 Hf0].
  destruct (drain_tame (length (events s)) (events s) b s fuel)
    as (s' & Hrun & Hh & Hp & He & _ & Hc).
  - reflexivity.
  - eapply Forall_impl; [exact Hplain|]. by intros e [].
  - exact Hall.
  - lia.
  - lia.
  - exists s'. rewrite Hb0, andb_true_r in Hrun. rewrite Hb0, Hf0 in Hc.
    change (fresh_events ExitEventTypeId (brk s) 0) with (@nil Event) in Hc.
    rewrite app_nil_r in Hc. by repeat split.
Qed.

(** ** When the loop returns *)

Lemma exec_freed (p : Prog U) : forall s s',
  exec p s = Done s' -> freed (trace s') = freed (trace s).
Proof.
  induction p as [u|sd ty d dt k IH|sd ty d dt k IH|d dt fn k IH|h k IH|h k IH
                 |h k IH|h k IH|k IH]; intros s s' H; cbn in H.
  - by injection H as <-.
  - apply IH in H. rewrite H. by trace_simpl.
  - apply IH in H. rewrite H. by trace_simpl.
  - destruct (EventHandler_new d dt fn s) as [[a s1]| |] eqn:E; [|discriminate..].
    cbn in H. apply IH in H. apply handler_new_keeps_events in E.
    destruct E as (_ & _ & E & _). congruence.
  - destruct (EventHandler_incref h s) as [s1| |] eqn:E; [|discriminate..].
    cbn in H. apply IH in H. apply incref_keeps_events in E.
    destruct E as (_ & _ & E & _). congruence.
  - destruct (EventHandler_decref h s) as [s1| |] eqn:E; [|discriminate..].
    cbn in H. apply IH in H. apply decref_keeps_events in E.
    destruct E as (_ & _ & E & _). congruence.
  - by apply IH in H.
  - apply IH in H. rewrite H. by trace_simpl.
  - apply IH in H. rewrite H. by trace_simpl.
Qed.

Lemma broadcast_freed (e : Event) (fuel : nat) : forall en s s',
  broadcast fuel en e s = Done s' -> freed (trace s') = freed (trace s).
Proof.
  induction fuel as [|fuel IH]; intros en s s' H; [discriminate|].
  cbn [broadcast] in H.
  destruct (EventHandlerEnumerator_getNextHandler en s) as [h en'].
  destruct (h =? 0); [by injection H as <-|].
  destruct (EventHandler_handleEvent h e s) as [s1| |] eqn:E; [|discriminate..].
  cbn [bind] in H. apply IH in H. rewrite H.
  unfold EventHandler_handleEvent in E.
  destruct (heap s !! h) as [r|]; [|discriminate].
  destruct (handler r =? 0); [discriminate|].
  apply exec_freed in E. rewrite E. by trace_simpl.
Qed.

(** A turn of the drain loop frees the event it was given and no other,
    and clears the running flag only for a break-loop request. *)
Lemma dispatch_freed (fuel : nat) (e : Event) (b r : bool) (s s' : State) :
  dispatch fuel e b s = Done (r, s') ->
  freed (trace s') = freed (trace s) ++ [e]
  /\ (r = b \/ (r = false /\ type e = BreakLoopEventTypeId)).
Proof.
  unfold dispatch. intros H.
  destruct (EventSystem_handleEvent e s) as [[act s1]| |] eqn:E; [|discriminate..].
  cbn [bind] in H.
  assert (Hact : act = EventSystemActionExit -> type e = BreakLoopEventTypeId).
  { unfold EventSystem_handleEvent in E.
    destruct (Z.eqb_spec (type e) BreakLoopEventTypeId) as [?|_]; [done|].
    destruct (type e =? RemoveHandlerEventTypeId); [|by injection E as <- _].
    destruct (negb (data e =? 0)); [|by injection E as <- _].
    destruct (EventHandler_decref (data e) _); [|discriminate..].
    cbn in E. by injection E as <- _. }
  apply system_handleEvent_keeps_events in E. destruct E as (_ & _ & Hf1 & _).
  assert (Hfree : forall s0, freed (trace (Event_free e s0)) = freed (trace s0) ++ [e]).
  { intros s0. unfold Event_free. destruct (negb _ && negb _); by trace_simpl. }
  destruct (decide (act = EventSystemActionExit)) as [Hx|_].
  - injection H as <- <-. rewrite Hfree. split; [|right; auto].
    trace_simpl. by rewrite Hf1.
  - destruct (broadcast fuel EventSystem_getHandlers e s1) as [s2| |] eqn:B;
      [|discriminate..].
    cbn in H. injection H as <- <-. rewrite Hfree. split; [|by left].
    apply broadcast_freed in B. by rewrite B, Hf1.
Qed.

Lemma drain_freed (fuel : nat) : forall (b r : bool) (s s' : State),
  drain fuel b s = Done (r, s') ->
  events s' = []
  /\ exists d, freed (trace s') = freed (trace s) ++ d
       /\ (r = b \/ (r = false /\ exists e, e ∈ d /\ type e = BreakLoopEventTypeId)).
Proof.
  induction fuel as [|fuel IH]; intros b r s s' H; [discriminate|].
  cbn [drain] in H. unfold EventSystem_getNextEvent, Queue_size, Queue_dequeue in H.
  destruct (events s) as [|e q] eqn:Hq; cbn in H.
  - injection H as <- <-. split; [done|]. exists []. rewrite app_nil_r. auto.
  - destruct (dispatch fuel e b (set_events q s)) as [[r1 s2]| |] eqn:D;
      [|discriminate..].
    cbn in H. apply IH in H. destruct H as (He & d & Hf & Hr).
    apply dispatch_freed in D. destruct D as [Hf2 Hr1]. cbn [trace set_events] in Hf2.
    split; [exact He|]. exists (e :: d). split; [by rewrite Hf, Hf2, <- app_assoc|].
    destruct Hr1 as [->|[-> Hty]].
    + destruct Hr as [->|[-> (x & Hx & Htx)]]; [by left|].
      right. split; [done|]. exists x. split; [by right|done].
    + right. split; [by destruct Hr as [->|[-> _]]|]. exists e. split; [by left|done].
Qed.

Lemma frames_freed (fuel : nat) : forall (lastTicks : Clock) (s s' : State),
  frames fuel lastTicks s = Done s' ->
  events s' = []
  /\ exists d e, freed (trace s') = freed (trace s) ++ d
       /\ e ∈ d /\ type e = BreakLoopEventTypeId.
Proof.
  induction fuel as [|fuel IH]; intros lastTicks s s' H; [discriminate|].
  cbn [frames] in H. cbn [now Event_new malloc] in H.
  destruct (drain (S fuel) true _) as [[r s4]| |] eqn:D; [|discriminate..].
  cbn [bind] in H. apply drain_freed in D. destruct D as (He & d & Hf & Hr).
  assert (Hf0 : freed (trace s4) = freed (trace s) ++ d).
  { rewrite Hf. by trace_simpl. }
  clear Hf.
  match type of H with
  | context [pace ?c s4] =>
      destruct (pace_keeps_events c s4) as (Hpe & _ & Hpf & _)
  end.
  destruct r.
  - apply IH in H. destruct H as (He' & d' & e & Hf' & Hin & Hty).
    split; [exact He'|]. exists (d ++ d'), e.
    rewrite Hf', Hpf, Hf0, <- app_assoc. split; [done|]. split; [|done].
    apply elem_of_app. by right.
  - injection H as <-. destruct Hr as [?|[_ (e & Hin & Hty)]]; [done|].
    split; [by rewrite Hpe|]. exists d, e. by rewrite Hpf, Hf0.
Qed.

(** X4: whatever the callbacks do, [EventSystem_loop] returns only after
    a break-loop request has been taken from the queue and destroyed
    during the run, and when it returns the queue is empty. *)
Theorem loop_returns_only_after_a_break_request (fuel : nat) (s s' : State) :
  EventSystem_loop fuel s = Done s' ->
  events s' = []
  /\ exists d e, freed (trace s') = freed (trace s) ++ d
       /\ e ∈ d /\ type e = BreakLoopEventTypeId.
Proof.
  unfold EventSystem_loop. cbn [Event_new malloc now]. intros H.
  apply frames_freed in H. destruct H as (He & d & e & Hf & Hin & Hty).
  split; [exact He|]. exists d, e. split; [|done]. rewrite Hf. by trace_simpl.
Qed.

(** ** More fuel changes no outcome *)

Lemma broadcast_mono (e : Event) (fuel : nat) : forall (fuel' : nat) en s,
  (fuel <= fuel')%nat -> broadcast fuel en e s <> OutOfFuel ->
  broadcast fuel' en e s = broadcast fuel en e s.
Proof.
  induction fuel as [|fuel IH]; intros fuel' en s Hle Hne; [done|].
  destruct fuel' as [|fuel']; [lia|]. cbn [broadcast] in *.
  destruct (EventHandlerEnumerator_getNextHandler en s) as [h en'].
  destruct (h =? 0); [done|].
  destruct (EventHandler_handleEvent h e s) as [s1| |]; cbn [bind] in *; [|done..].
  apply IH; [lia|done].
Qed.

Lemma dispatch_mono (fuel fuel' : nat) (e : Event) (b : bool) (s : State) :
  (fuel <= fuel')%nat -> dispatch fuel e b s <> OutOfFuel ->
  dispatch fuel' e b s = dispatch fuel e b s.
Proof.
  unfold dispatch. intros Hle Hne.
  destruct (EventSystem_handleEvent e s) as [[act s1]| |]; cbn [bind] in *; [|done..].
  destruct (decide (act = EventSystemActionExit)); [done|].
  rewrite (broadcast_mono e fuel fuel'); [done|lia|].
  intros Hb. rewrite Hb in Hne. by apply Hne.
Qed.

Lemma drain_mono (fuel : nat) : forall (fuel' : nat) (b : bool) (s : State),
  (fuel <= fuel')%nat -> drain fuel b s <> OutOfFuel ->
  drain fuel' b s = drain fuel b s.
Proof.
  induction fuel as [|fuel IH]; intros fuel' b s Hle Hne; [done|].
  destruct fuel' as [|fuel']; [lia|]. cbn [drain] in *.
  destruct (EventSystem_getNextEvent s) as [[e|] s1]; [|done].
  rewrite (dispatch_mono fuel fuel'); [|lia|].
  - destruct (dispatch fuel e b s1) as [[r s2]| |]; cbn [bind] in *; [|done..].
    apply IH; [lia|done].
  - intros Hd. rewrite Hd in Hne. by apply Hne.
Qed.

(** ** A loop nobody stops *)

Lemma frames_never_return (fuel : nat) : forall (lastTicks : Clock) (s : State),
  UpdateEventTypeId <> RemoveHandlerEventTypeId ->
  UpdateEventTypeId <> BreakLoopEventTypeId ->
  Forall plain (events s) ->
  Forall (tame (heap s)) (handlers s) ->
  frames fuel lastTicks s = OutOfFuel.
Proof.
  induction fuel as [|fuel IH]; intros lastTicks s Hu1 Hu2 Hplain Hall; [done|].
  cbn [frames]. cbn [now Event_new malloc].
  set (s3 := EventSystem_emit _ _).
  assert (Hplain3 : Forall plain (events s3)).
  { subst s3. cbn. unfold Queue_enqueue. apply Forall_app. split; [exact Hplain|].
    constructor; [|constructor]. by split. }
  assert (Hall3 : Forall (tame (heap s3)) (handlers s3)) by exact Hall.
  destruct (breaks_plain (events s3) Hplain3) as [Hb0 _].
  destruct (drain_tame (length (events s3)) (events s3) true s3
              (S fuel + (length (events s3) + length (handlers s3) + 2)))
    as (s4 & Hrun & Hh & Hp & He & _); [done| |done|lia|lia|].
  { eapply Forall_impl; [exact Hplain3|]. by intros e []. }
  rewrite Hb0 in Hrun. cbn [Nat.eqb andb] in Hrun.
  destruct (drain (S fuel) true s3) as [[r s4']| |] eqn:D; [|done|].
  - rewrite (drain_mono (S fuel)) in Hrun; [|lia|by rewrite D].
    rewrite D in Hrun. injection Hrun as -> ->. cbn [bind].
    apply IH; try done.
    + unfold pace. cbn. destruct (PrimFloat.ltb _ _); cbn; rewrite He; constructor.
    + unfold pace. cbn. destruct (PrimFloat.ltb _ _); cbn; by rewrite Hh, Hp.
  - rewrite (drain_mono (S fuel)) in Hrun; [|lia|by rewrite D].
    rewrite D in Hrun. discriminate.
Qed.

(** X5: with no stop request pending and live handlers whose callbacks
    make no call into the event system, [EventSystem_loop] neither returns
    nor runs into undefined behaviour, however much fuel it is given. *)
Theorem loop_runs_until_stopped (s : State) (fuel : nat) :
  public_tags_ok ->
  Forall plain (events s) ->
  Forall (tame (heap s)) (handlers s) ->
  EventSystem_loop fuel s = OutOfFuel.
Proof.
  intros (Hs1 & Hs2 & Hu1 & Hu2) Hplain Hall.
  unfold EventSystem_loop. cbn [Event_new malloc now].
  apply frames_never_return; try done.
  cbn. unfold Queue_enqueue. apply Forall_app. split; [exact Hplain|].
  constructor; [|constructor]. by split.
Qed.

(** ** A handler that removes itself *)

Lemma drain_step (fuel : nat) (b : bool) (s : State) (e : Event) (q : list Event) :
  events s = e :: q ->
  drain (S fuel) b s
  = let* (r, s2) := dispatch fuel e b (set_events q s) in drain fuel r s2.
Proof.
  intros Hq. cbn [drain].
  unfold EventSystem_getNextEvent, Queue_size, Queue_dequeue. by rewrite Hq.
Qed.

(** The only registered handler removes itself and stops on a client
    event: it is entered, and its two requests are queued. *)
Lemma dispatch_self_removing (n : nat) (e : Event) (b : bool) (s : State)
    (h : Z) (r : EventHandler) :
  plain e -> h <> NULL -> handler r <> NULL ->
  removes_itself_and_stops (handler r) ->
  heap s !! h = Some r -> handlers s = [h] ->
  exists s' rh bl,
    dispatch (S (S n)) e b s = Done (b, s')
    /\ handlers s' = [h] /\ heap s' = heap s
    /\ events s' = events s ++ [rh; bl]
    /\ type rh = RemoveHandlerEventTypeId /\ data rh = h
    /\ type bl = BreakLoopEventTypeId
    /\ calls (trace s') = calls (trace s) ++ [(h, e)].
Proof.
  intros [Hnr Hnb] Hh Hfn Hself Hr Hhs.
  unfold dispatch, EventSystem_handleEvent.
  destruct (Z.eqb_spec (type e) BreakLoopEventTypeId) as [?|_]; [done|].
  destruct (Z.eqb_spec (type e) RemoveHandlerEventTypeId) as [?|_]; [done|].
  cbn [bind]. destruct (decide _) as [?|_]; [done|].
  unfold EventSystem_getHandlers, EventHandlerEnumerator_new.
  cbn [broadcast]. unfold EventHandlerEnumerator_getNextHandler at 1.
  cbn [index]. unfold List_count, List_get. rewrite Hhs. cbn [length Nat.leb lookup list_lookup].
  destruct (Z.eqb_spec h 0) as [?|_]; [done|].
  unfold EventHandler_handleEvent. rewrite Hr.
  destruct (Z.eqb_spec (handler r) 0) as [?|_]; [done|].
  destruct (Hself h e (elapsedMillis s) (user s)) as [u' ->].
  cbn [exec EventSystem_removeHandler EventSystem_exit Event_new malloc bind].
  unfold EventHandlerEnumerator_getNextHandler. cbn [index]. unfold List_count.
  cbn [handlers set_user EventSystem_emit set_events log set_brk]. rewrite Hhs.
  cbn [length Nat.leb]. rewrite Z.eqb_refl.
  eexists _, _, _. split; [reflexivity|]. unfold Event_free.
  destruct (negb _ && negb _); trace_simpl; rewrite ?Hhs; unfold Queue_enqueue;
    rewrite <- ?app_assoc; by repeat split.
Qed.

(** The request to remove the only registered handler, which holds its
    last reference: the handler leaves the sequence and is destroyed. *)
Lemma dispatch_last_reference (n : nat) (e : Event) (b : bool) (s : State)
    (h : Z) (r : EventHandler) :
  type e = RemoveHandlerEventTypeId -> data e = h -> h <> NULL ->
  heap s !! h = Some r -> _refCount r = 1 -> handlers s = [h] ->
  exists s',
    dispatch (S n) e b s = Done (b, s')
    /\ handlers s' = [] /\ heap s' !! h = None /\ events s' = events s
    /\ calls (trace s') = calls (trace s).
Proof.
  intros Hty Hd Hh Hr Hrc Hhs. unfold dispatch, EventSystem_handleEvent.
  rewrite Hty, Hd.
  destruct (Z.eqb_spec RemoveHandlerEventTypeId BreakLoopEventTypeId) as [E|_];
    [by apply internal_tags_differ in E|].
  rewrite Z.eqb_refl. destruct (Z.eqb_spec h 0) as [?|_]; [done|]. cbn [negb].
  unfold EventHandler_decref. cbn [heap set_handlers]. rewrite Hr, Hrc, Hhs.
  change (0 =? 1 - 1) with true. cbn [List_remove]. rewrite decide_True by done.
  cbn beta iota.
  unfold EventSystem_getHandlers, EventHandlerEnumerator_new.
  destruct (negb (eh_destructor r =? 0) && negb (eh_data r =? 0));
    cbn [bind]; (destruct (decide _) as [?|_]; [done|]);
    cbn [broadcast]; unfold EventHandlerEnumerator_getNextHandler; cbn;
    (eexists; split; [reflexivity|]); unfold Event_free;
    destruct (negb _ && negb _); trace_simpl;
    (split; [done|]); (split; [apply lookup_delete_eq|done]).
Qed.

(** A removal request for a record that is no longer live. *)
Lemma dispatch_dangling (fuel : nat) (e : Event) (b : bool) (s : State) :
  type e = RemoveHandlerEventTypeId -> data e <> NULL ->
  heap s !! data e = None ->
  dispatch fuel e b s = Fault BadPointer.
Proof.
  intros Hty Hd Hr. unfold dispatch, EventSystem_handleEvent. rewrite Hty.
  destruct (Z.eqb_spec RemoveHandlerEventTypeId BreakLoopEventTypeId) as [E|_];
    [by apply internal_tags_differ in E|].
  rewrite Z.eqb_refl. destruct (Z.eqb_spec (data e) 0) as [?|_]; [done|]. cbn [negb].
  unfold EventHandler_decref. cbn [heap set_handlers]. by rewrite Hr.
Qed.

(** X10: a handler that is registered alone, holds its only reference,
    and on every event requests its own removal and a stop.  Removal is
    deferred, so the handler is entered with [Start] and with [Update] and
    two removal requests are queued; the first destroys the record, and
    the second releases it again: the loop ends in undefined behaviour. *)
Theorem self_removal_on_every_event_releases_twice
    (h : Z) (r : EventHandler) (s : State) (n : nat) :
  public_tags_ok ->
  h <> NULL -> handler r <> NULL ->
  removes_itself_and_stops (handler r) ->
  _refCount r = 1 ->
  heap s !! h = Some r -> handlers s = [h] -> events s = [] ->
  EventSystem_loop (5 + n) s = Fault BadPointer.
Proof.
  intros (Hs1 & Hs2 & Hu1 & Hu2) Hh Hfn Hself Hrc Hr Hhs Hq.
  unfold EventSystem_loop. cbn [Event_new malloc now Nat.add frames].
  set (s3 := EventSystem_emit _ _).
  set (st := start_event (brk s)). set (up := update_event (brk s + 1)).
  assert (Hq3 : events s3 = [st; up]).
  { subst s3. cbn. by rewrite Hq. }
  assert (Hh3 : handlers s3 = [h]) by exact Hhs.
  assert (Hr3 : heap s3 !! h = Some r) by exact Hr.
  clearbody s3.
  (* Start *)
  rewrite (drain_step _ _ _ _ _ Hq3).
  destruct (dispatch_self_removing (S (S n)) st true (set_events [up] s3) h r)
    as (s4 & rh1 & bl1 & -> & Hh4 & Hp4 & Hq4 & Hty1 & Hd1 & Htb1 & _); try done.
  cbn [bind]. cbn [events heap set_events app] in Hq4, Hp4.
  (* Update *)
  rewrite (drain_step _ _ _ _ _ Hq4).
  destruct (dispatch_self_removing (S n) up true (set_events [rh1; bl1] s4) h r)
    as (s5 & rh2 & bl2 & -> & Hh5 & Hp5 & Hq5 & Hty2 & Hd2 & Htb2 & _); try done.
  { cbn. by rewrite Hp4. }
  cbn [bind]. cbn [events heap set_events app] in Hq5, Hp5.
  (* the first removal request *)
  rewrite (drain_step _ _ _ _ _ Hq5).
  destruct (dispatch_last_reference (S n) rh1 true
              (set_events [bl1; rh2; bl2] s5) h r)
    as (s6 & -> & Hh6 & Hp6 & Hq6 & _); try done.
  { cbn. by rewrite Hp5, Hp4. }
  cbn [bind]. cbn [events set_events] in Hq6.
  (* the first stop request *)
  rewrite (drain_step _ _ _ _ _ Hq6).
  destruct (dispatch_break (S n) bl1 true (set_events [rh2; bl2] s6) Htb1)
    as (s7 & -> & _ & Hp7 & _ & Hq7 & _).
  cbn [bind]. cbn [events heap set_events app] in Hq7, Hp7.
  (* the second removal request *)
  rewrite (drain_step _ _ _ _ _ Hq7).
  rewrite dispatch_dangling; [done|done|by rewrite Hd2|].
  cbn. by rewrite Hd2, Hp7.
Qed.

(** ** The trace is append-only *)

Lemma grows_trans (s1 s2 s3 : State) :
  (exists d, trace s2 = trace s1 ++ d) -> (exists d, trace s3 = trace s2 ++ d) ->
  exists d, trace s3 = trace s1 ++ d.
Proof. intros [d1 H1] [d2 H2]. exists (d1 ++ d2). by rewrite H2, H1, app_assoc. Qed.

Lemma decref_grows (p : Z) (s s' : State) :
  EventHandler_decref p s = Done s' -> exists d, trace s' = trace s ++ d.
Proof.
  unfold EventHandler_decref. destruct (heap s !! p) as [h|]; [|discriminate].
  destruct (0 =? _refCount h - 1); intros [= <-]; [|exists []; by rewrite app_nil_r].
  destruct (negb _ && negb _); cbn; eexists; by rewrite <- ?app_assoc.
Qed.

Lemma exec_grows (p : Prog U) : forall s s',
  exec p s = Done s' -> exists d, trace s' = trace s ++ d.
Proof.
  induction p as [u|sd ty d dt k IH|sd ty d dt k IH|d dt fn k IH|h k IH|h k IH
                 |h k IH|h k IH|k IH]; intros s s' H; cbn in H.
  - injection H as <-. exists []. by rewrite app_nil_r.
  - apply IH in H. eapply grows_trans; [|exact H]. by eexists.
  - apply IH in H. eapply grows_trans; [|exact H]. by eexists.
  - unfold EventHandler_new in H.
    destruct (negb (d =? 0) && (dt =? 0)); [discriminate|]. cbn in H. by apply IH in H.
  - unfold EventHandler_incref in H.
    destruct (heap s !! h); [|discriminate]. cbn in H. by apply IH in H.
  - destruct (EventHandler_decref h s) as [s1| |] eqn:E; [|discriminate..].
    cbn in H. apply IH in H. apply decref_grows in E. eapply grows_trans; eassumption.
  - by apply IH in H.
  - apply IH in H. eapply grows_trans; [|exact H]. by eexists.
  - apply IH in H. eapply grows_trans; [|exact H]. by eexists.
Qed.

Lemma broadcast_grows (e : Event) (fuel : nat) : forall en s s',
  broadcast fuel en e s = Done s' -> exists d, trace s' = trace s ++ d.
Proof.
  induction fuel as [|fuel IH]; intros en s s' H; [discriminate|].
  cbn [broadcast] in H.
  destruct (EventHandlerEnumerator_getNextHandler en s) as [h en'].
  destruct (h =? 0); [injection H as <-; exists []; by rewrite app_nil_r|].
  destruct (EventHandler_handleEvent h e s) as [s1| |] eqn:E; [|discriminate..].
  cbn [bind] in H. apply IH in H. eapply grows_trans; [|exact H].
  unfold EventHandler_handleEvent in E.
  destruct (heap s !! h) as [r|]; [|discriminate].
  destruct (handler r =? 0); [discriminate|].
  apply exec_grows in E. eapply grows_trans; [|exact E]. by eexists.
Qed.

Lemma dispatch_grows (fuel : nat) (e : Event) (b r : bool) (s s' : State) :
  dispatch fuel e b s = Done (r, s') -> exists d, trace s' = trace s ++ d.
Proof.
  unfold dispatch. intros H.
  destruct (EventSystem_handleEvent e s) as [[act s1]| |] eqn:E; [|discriminate..].
  cbn [bind] in H.
  assert (H1 : exists d, trace s1 = trace s ++ d).
  { unfold EventSystem_handleEvent in E.
    destruct (type e =? BreakLoopEventTypeId);
      [injection E as _ <-; exists []; by rewrite app_nil_r|].
    destruct (type e =? RemoveHandlerEventTypeId);
      [|injection E as _ <-; exists []; by rewrite app_nil_r].
    destruct (negb (data e =? 0)); [|injection E as _ <-; exists []; by rewrite app_nil_r].
    destruct (EventHandler_decref (data e) _) as [s2| |] eqn:Hd; [|discriminate..].
    cbn in E. injection E as _ <-. by apply decref_grows in Hd. }
  assert (Hfree : forall s0, exists d, trace (Event_free e s0) = trace s0 ++ d).
  { intros s0. unfold Event_free. destruct (negb _ && negb _); cbn; eexists;
      by rewrite <- ?app_assoc. }
  eapply grows_trans; [exact H1|].
  destruct (decide (act = EventSystemActionExit)) as [_|_].
  - injection H as _ <-. eapply grows_trans; [|apply Hfree]. by eexists.
  - destruct (broadcast fuel EventSystem_getHandlers e s1) as [s2| |] eqn:B;
      [|discriminate..].
    cbn in H. injection H as _ <-. apply broadcast_grows in B.
    eapply grows_trans; [exact B|apply Hfree].
Qed.

Lemma drain_grows (fuel : nat) : forall (b r : bool) (s s' : State),
  drain fuel b s = Done (r, s') -> exists d, trace s' = trace s ++ d.
Proof.
  induction fuel as [|fuel IH]; intros b r s s' H; [discriminate|].
  cbn [drain] in H. unfold EventSystem_getNextEvent, Queue_size, Queue_dequeue in H.
  destruct (events s) as [|e q]; cbn in H.
  - injection H as _ <-. exists []. by rewrite app_nil_r.
  - destruct (dispatch fuel e b (set_events q s)) as [[r1 s2]| |] eqn:D;
      [|discriminate..].
    cbn in H. apply IH in H. apply dispatch_grows in D.
    eapply grows_trans; [exact D|exact H].
Qed.

(** X11: first in, first out, whatever the callbacks do.  A drain that
    completes has destroyed, and so dispatched, first the events that were
    pending when it began, in queue order, and then every event built
    while it ran, in the order they were built; none is left pending. *)
Theorem drain_dispatches_pending_then_new_events
    (fuel : nat) (b r : bool) (s s' : State) :
  ledger [] s ->
  drain fuel b s = Done (r, s') ->
  events s' = []
  /\ exists new, created (trace s') = created (trace s) ++ new
       /\ freed (trace s') = freed (trace s) ++ events s ++ new.
Proof.
  intros L H. destruct (drain_grows _ _ _ _ _ H) as [d Hd].
  destruct (drain_ledger _ _ _ _ _ H L) as [(L1 & _) He].
  split; [exact He|]. exists (created d).
  assert (Hc : created (trace s') = created (trace s) ++ created d)
    by (by rewrite Hd, created_app).
  split; [exact Hc|].
  rewrite He in L1. cbn in L1. rewrite app_nil_r in L1.
  destruct L as (L0 & _). cbn in L0.
  by rewrite <- L1, Hc, L0, <- app_assoc.
Qed.

(** ** A [NULL] entry in the handler sequence *)

(** X12: the walk of the enumerator ends at the first [NULL] entry of the
    sequence: the handlers registered before it are entered, in order, and
    no handler registered after it is, nor any handler registered during
    the walk. *)
Theorem null_entry_ends_the_broadcast
    (fuel : nat) (e : Event) (s s' : State) (before after : list Z) :
  handlers s = before ++ NULL :: after ->
  0 ∉ before ->
  broadcast fuel EventSystem_getHandlers e s = Done s' ->
  calls (trace s') = calls (trace s) ++ ((fun h => (h, e)) <$> before).
Proof.
  intros Hhs Hnn H. apply broadcast_calls in H. destruct H as [[added Ha] Hc].
  rewrite Hc, drop_0, Ha, Hhs, <- app_assoc, upto_null_app by done.
  cbn. by rewrite app_nil_r.
Qed.

(** ** The order of a whole run *)

Lemma pace_grows (c : Clock) (s : State) : exists d, trace (pace c s) = trace s ++ d.
Proof.
  unfold pace. cbn. destruct (PrimFloat.ltb _ _); cbn; [by eexists|].
  exists []. by rewrite app_nil_r.
Qed.

(** The first thing a run of the frames shows is the construction of the
    [Update] event of the first frame. *)
Lemma frames_grows (fuel : nat) : forall (lastTicks : Clock) (s s' : State),
  frames fuel lastTicks s = Done s' ->
  exists d, trace s' = trace s ++ OEventNew (update_event (brk s)) :: d.
Proof.
  induction fuel as [|fuel IH]; intros lastTicks s s' H; [discriminate|].
  cbn [frames] in H. cbn [now Event_new malloc] in H.
  destruct (drain (S fuel) true _) as [[r s4]| |] eqn:D; [|discriminate..].
  cbn [bind] in H. apply drain_grows in D. destruct D as [d1 Hd1].
  cbn in Hd1.
  match type of H with
  | context [pace ?c s4] => destruct (pace_grows c s4) as [d2 Hd2]
  end.
  destruct r.
  - apply IH in H. destruct H as [d3 Hd3]. eexists.
    rewrite Hd3, Hd2, Hd1, <- !app_assoc. cbn. reflexivity.
  - injection H as <-. eexists. rewrite Hd2, Hd1, <- !app_assoc. cbn. reflexivity.
Qed.

(** X13: the order of a run, whatever the callbacks do.  When
    [EventSystem_loop] returns it has destroyed, and so dispatched, in this
    order: the events that were pending when it was called, then its
    [Start] event, then the [Update] event of the first frame, then every
    event built later, in the order they were built. *)
Theorem loop_dispatches_pending_then_start_then_update
    (fuel : nat) (s s' : State) :
  ledger [] s ->
  EventSystem_loop fuel s = Done s' ->
  exists later,
    created (trace s')
    = created (trace s)
        ++ start_event (brk s) :: update_event (brk s + 1) :: later
    /\ freed (trace s')
       = freed (trace s) ++ events s
           ++ start_event (brk s) :: update_event (brk s + 1) :: later.
Proof.
  intros L H. destruct (loop_ledger _ _ _ H L) as [(L1 & _) He].
  unfold EventSystem_loop in H. cbn [Event_new malloc now] in H.
  apply frames_grows in H. destruct H as [d Hd]. cbn in Hd.
  rewrite He in L1. cbn in L1. rewrite app_nil_r in L1.
  destruct L as (L0 & _). cbn in L0.
  assert (Hc : created (trace s')
    = created (trace s)
        ++ start_event (brk s) :: update_event (brk s + 1) :: created d).
  { rewrite Hd, !created_app. cbn. by rewrite <- !app_assoc. }
  exists (created d). split; [exact Hc|].
  by rewrite <- L1, Hc, L0, <- !app_assoc.
Qed.

(** ** Every event is destroyed exactly once *)


End Properties.

(** * Concrete runs *)

#[local] Existing Instance demo_world.

Lemma demo_quiet (fn : Z) : fn <> 200 -> quiet fn.
Proof.
  intros Hfn p e ms u. exists (S u). cbn. unfold demo_callback.
  by destruct (Z.eqb_spec fn 200).
Qed.

Lemma demo_tags : public_tags_ok.
Proof. by repeat split. Qed.

Lemma two_tame : Forall (tame (heap two)) (handlers two).
Proof.
  repeat constructor; try done.
  - exists (plain_handler 100 1). repeat split; try done. by apply demo_quiet.
  - exists (plain_handler 101 1). repeat split; try done. by apply demo_quiet.
Qed.

Lemma boot_ledger : ledger [] boot.
Proof. repeat split; constructor. Qed.

(** C7 at a concrete input: a handler with a payload, retained to a count
    of 3; two releases show nothing, the third destroys it. *)
Lemma release_to_zero_destroys_once_witness :
  let made := snd (outcome (EventHandler_new 5 6 100 boot) (0, boot)) in
  EventHandler_new 5 6 100 boot = Done (16, made)
  /\ (1 <= 3)%nat /\ (2 < 3)%nat
  /\ exists s2 s3 s4 h,
       times (3 - 1) (EventHandler_incref 16) made = Done s2
       /\ heap s2 !! 16 = Some h /\ _refCount h = Z.of_nat 3
       /\ times 2 (EventHandler_decref 16) s2 = Done s3
       /\ trace s3 = trace boot /\ is_Some (heap s3 !! 16)
       /\ times 3 (EventHandler_decref 16) s2 = Done s4
       /\ trace s4 = trace boot ++
            (if 5 =? NULL then [] else [OHandlerDtor 16 6 5]) ++ [OHandlerFree 16]
       /\ heap s4 !! 16 = None.
Proof.
  intros made. split; [reflexivity|]. split; [lia|]. split; [lia|].
  apply (release_to_zero_destroys_once 5 6 100 boot made 16 3 2);
    [reflexivity|lia|lia].
Defined.

(** C8 at a concrete input: handlers [10] and [11] registered in this
    order. *)
Lemma handlers_invoked_in_registration_order_witness :
  (0 ∉ [10; 11])
  /\ (forall fuel s',
        broadcast fuel EventSystem_getHandlers ping
          (register [10; 11] (EventSystem_init two)) = Done s' ->
        exists added, handlers s' = [10; 11] ++ added
          /\ calls (trace s') = calls (trace two)
               ++ ((fun h => (h, ping)) <$> ([10; 11] ++ upto_null added)))
  /\ (Forall (tame (heap two)) [10; 11] ->
      forall fuel, (length [10; 11] < fuel)%nat ->
      exists s',
        broadcast fuel EventSystem_getHandlers ping
          (register [10; 11] (EventSystem_init two)) = Done s'
        /\ handlers s' = [10; 11]
        /\ calls (trace s') = calls (trace two) ++ ((fun h => (h, ping)) <$> [10; 11])).
Proof.
  assert (H0 : 0 ∉ [10; 11]).
  { intros H. repeat (apply elem_of_cons in H as [H|H]; [discriminate|]).
    by apply elem_of_nil in H. }
  split; [exact H0|].
  exact (handlers_invoked_in_registration_order [10; 11] ping two H0).
Defined.

(** The two handlers of [two] are indeed entered in this order. *)
Example two_broadcast :
  calls (trace (outcome (broadcast 3 EventSystem_getHandlers ping two) two))
  = [(10, ping); (11, ping)].
Proof. vm_compute. reflexivity. Qed.

(** C9 at a concrete input: the callback of handler [20] registers
    handler [11], which is then entered in the same walk. *)
Lemma handler_added_during_broadcast_is_invoked_witness :
  let s1 := outcome (EventHandler_handleEvent 20 ping adder) adder in
  let s' := outcome (broadcast 3 {| index := 0 |} ping adder) adder in
  handlers adder !! 0%nat = Some 20
  /\ EventHandler_handleEvent 20 ping adder = Done s1
  /\ 11 ∈ drop (length (handlers adder)) (handlers s1)
  /\ broadcast 3 {| index := 0 |} ping adder = Done s'
  /\ (0 ∉ handlers s')
  /\ exists mid rest,
       calls (trace s') = calls (trace adder) ++ (20, ping) :: mid ++ (11, ping) :: rest.
Proof.
  intros s1 s'.
  assert (H1 : handlers adder !! 0%nat = Some 20) by reflexivity.
  assert (H2 : EventHandler_handleEvent 20 ping adder = Done s1) by reflexivity.
  assert (H3 : 11 ∈ drop (length (handlers adder)) (handlers s1)).
  { vm_compute. apply list_elem_of_here. }
  assert (H4 : broadcast 3 {| index := 0 |} ping adder = Done s') by reflexivity.
  assert (H5 : 0 ∉ handlers s').
  { vm_compute. intros H. repeat (apply elem_of_cons in H as [H|H]; [discriminate|]).
    by apply elem_of_nil in H. }
  repeat (split; [assumption|]).
  exact (handler_added_during_broadcast_is_invoked 3 0 ping adder s1 s' 20 11
           H1 H2 H3 H4 H5).
Defined.

Example adder_broadcast :
  calls (trace (outcome (broadcast 3 {| index := 0 |} ping adder) adder))
  = [(20, ping); (11, ping)].
Proof. vm_compute. reflexivity. Qed.

(** C1: the code breaks the claim.  With handlers [10] and [11]
    registered and the removal of [10] requested, the drain first destroys
    record [10] and then enters the callback of handler [11] with the
    remove-handler event itself, whose payload still points at the
    destroyed record.  The other internal tag is intercepted: a break-loop
    request on the same handlers reaches no callback, only the [Exit]
    event it queues does. *)
Theorem remove_event_reaches_a_user_handler :
  (exists s',
     drain 3 true (EventSystem_removeHandler 10 two) = Done (true, s')
     /\ type remove10 = RemoveHandlerEventTypeId
     /\ data remove10 = 10
     /\ heap s' !! 10 = None
     /\ trace s' = [OEventNew remove10; OHandlerFree 10;
                    OInvoke 11 101 remove10; OEventFree remove10]
     /\ calls (trace s') = [(11, remove10)])
  /\ (exists s',
       drain 5 true (EventSystem_exit two) = Done (false, s')
       /\ (fun c => (fst c, type (snd c))) <$> calls (trace s')
          = [(10, ExitEventTypeId); (11, ExitEventTypeId)]).
Proof.
  split.
  - eexists. split; [vm_compute; reflexivity|]. repeat split.
  - eexists. split; [vm_compute; reflexivity|]. reflexivity.
Qed.

(** The turn of the drain loop on the request to remove handler [10]. *)
Lemma remove_event_is_broadcast_to_remaining_handlers_witness :
  let s := set_events [] (EventSystem_removeHandler 10 two) in
  let s' := snd (outcome (dispatch 2 remove10 true s) (true, s)) in
  dispatch 2 remove10 true s = Done (true, s')
  /\ (type remove10 = BreakLoopEventTypeId -> calls (trace s') = calls (trace s))
  /\ (type remove10 = RemoveHandlerEventTypeId ->
      exists added,
        handlers s' =
          (if data remove10 =? NULL then handlers s
           else List_remove (handlers s) (data remove10)) ++ added
        /\ calls (trace s') = calls (trace s)
             ++ ((fun h => (h, remove10)) <$> upto_null (handlers s'))).
Proof.
  intros s s'.
  assert (H : dispatch 2 remove10 true s = Done (true, s')) by (vm_compute; reflexivity).
  split; [exact H|].
  exact (remove_event_is_broadcast_to_remaining_handlers 2 remove10 true true s s' H).
Defined.

Lemma owner_ledger : ledger [] owner.
Proof.
  apply (ledger_emit_new [] 0 BreakLoopEventTypeId 0 0).
  apply (ledger_emit_new [] 0 7 5 6).
  apply (ledger_kept [] boot); [by repeat split|exact boot_ledger].
Qed.


(** The loop does return on [owner], and the one payload destructor it
    called is that of the client event. *)
Example owner_loop :
  let s' := outcome (EventSystem_loop 8 owner) owner in
  EventSystem_loop 8 owner = Done s'
  /\ destructed (trace s')
     = [{| self := 16; sender := 0; type := 7; data := 5; destructor := 6 |}]
  /\ length (freed (trace s')) = 5%nat
  /\ events s' = [].
Proof. vm_compute. repeat split. Qed.

Example owner_cleanup :
  let s' := outcome (EventSystem_cleanup owner) owner in
  EventSystem_cleanup owner = Done s'
  /\ destructed (trace s')
     = [{| self := 16; sender := 0; type := 7; data := 5; destructor := 6 |}]
  /\ length (freed (trace s')) = 2%nat.
Proof. vm_compute. repeat split. Qed.

(** C10 at a concrete input: two stop requests, two handlers. *)
Lemma each_break_request_broadcasts_one_exit_witness :
  public_tags_ok
  /\ Forall plain (events two)
  /\ Forall (tame (heap two)) (handlers two)
  /\ (1 <= 2)%nat
  /\ (length (events two) + 2 * 2 + length (handlers two) + 3 < 10)%nat
  /\ exists s' es,
       EventSystem_loop 10 (Nat.iter 2 EventSystem_exit two) = Done s'
       /\ calls (trace s') = calls (trace two)
            ++ deliveries (handlers two) (events two ++ es)
       /\ type <$> es
          = StartEventTypeId :: UpdateEventTypeId :: replicate 2 ExitEventTypeId.
Proof.
  assert (H1 : Forall plain (events two)) by constructor.
  assert (H2 : (1 <= 2)%nat) by lia.
  assert (H3 : (length (events two) + 2 * 2 + length (handlers two) + 3 < 10)%nat)
    by (cbn; lia).
  split; [exact demo_tags|]. split; [exact H1|]. split; [exact two_tame|].
  split; [exact H2|]. split; [exact H3|].
  exact (each_break_request_broadcasts_one_exit 2 two 10 demo_tags H1 two_tame H2 H3).
Defined.

Example two_exits_run :
  (fun c => (fst c, type (snd c)))
    <$> calls (trace (outcome (EventSystem_loop 10 (Nat.iter 2 EventSystem_exit two)) two))
  = [(10, 0); (11, 0); (10, 1); (11, 1); (10, 2); (11, 2); (10, 2); (11, 2)].
Proof. vm_compute. reflexivity. Qed.

(** C4 at a concrete input: handler [10] alone. *)
Lemma exit_before_loop_gives_start_update_exit_witness :
  public_tags_ok
  /\ tame (heap two) 10
  /\ (6 < 7)%nat
  /\ exists s' e1 e2 e3,
       EventSystem_loop 7
         (EventSystem_exit (EventSystem_addHandler 10 (EventSystem_init two))) = Done s'
       /\ calls (trace s') = calls (trace two) ++ [(10, e1); (10, e2); (10, e3)]
       /\ type e1 = StartEventTypeId
       /\ type e2 = UpdateEventTypeId
       /\ type e3 = ExitEventTypeId.
Proof.
  assert (H1 : tame (heap two) 10).
  { pose proof two_tame as H. by apply Forall_cons in H as [H _]. }
  assert (H2 : (6 < 7)%nat) by lia.
  split; [exact demo_tags|]. split; [exact H1|]. split; [exact H2|].
  exact (exit_before_loop_gives_start_update_exit 10 two 7 demo_tags H1 H2).
Defined.

(** ** Where the code departs from the specification *)

(** C2: handler [10] is registered and held by one more owner (count 2).
    Its removal is requested and processed: it leaves the sequence and one
    reference is released.  Its removal is requested a second time: the
    processing removes nothing from the sequence, yet it releases a
    reference again, and the record is destroyed under its other owner.
    With the count at 1 and both requests queued, the second one touches a
    record already freed. *)
Theorem second_remove_request_releases_again :
  let shared := set_heap (<[10 := plain_handler 100 2]> (heap two)) two in
  (exists s1 s2,
     drain 3 true (EventSystem_removeHandler 10 shared) = Done (true, s1)
     /\ handlers s1 = [11] /\ heap s1 !! 10 = Some (plain_handler 100 1)
     /\ drain 3 true (EventSystem_removeHandler 10 s1) = Done (true, s2)
     /\ handlers s2 = [11] /\ heap s2 !! 10 = None
     /\ exists again,
          type again = RemoveHandlerEventTypeId
          /\ trace s2 = trace s1 ++ [OEventNew again; OHandlerFree 10;
                                     OInvoke 11 101 again; OEventFree again])
  /\ drain 3 true (EventSystem_removeHandler 10 (EventSystem_removeHandler 10 two))
     = Fault BadPointer.
Proof.
  intros shared. split; [|vm_compute; reflexivity].
  eexists _, _. split; [vm_compute; reflexivity|].
  split; [reflexivity|]. split; [vm_compute; reflexivity|].
  split; [vm_compute; reflexivity|].
  split; [reflexivity|]. split; [vm_compute; reflexivity|].
  eexists {| self := 17; sender := 0; type := 3; data := 10; destructor := 0 |}.
  split; reflexivity.
Qed.

(** C5: the budget the loop paces against is 33 ms, the quotient of the
    integer division [1000 / 30], not 1000/30 ms: a frame that took 10 ms
    is followed by a sleep of 23 ms, and a frame that took 33.25 ms, which
    is under 1000/30 ms, by none.  A frame of 40 ms is followed by none
    either. *)
Theorem frame_budget_is_truncated_to_33ms :
  @millisPerFrame = 33%float
  /\ trace (pace (W := measured_world 10) tt (measured_boot 10)) = [OSleep 23]
  /\ PrimFloat.ltb 33.25 (PrimFloat.div 1000 30) = true
  /\ trace (pace (W := measured_world 33.25) tt (measured_boot 33.25)) = []
  /\ trace (pace (W := measured_world 40) tt (measured_boot 40)) = [].
Proof. vm_compute. repeat split. Qed.

(** ** Further properties at concrete inputs *)

Lemma two_counts : counts_positive (heap two).
Proof.
  intros p r H. change (heap two)
    with (<[10 := plain_handler 100 1]> (<[11 := plain_handler 101 1]> ∅ : gmap Z EventHandler)) in H.
  apply lookup_insert_Some in H as [[_ <-]|[_ H]]; [done|].
  apply lookup_insert_Some in H as [[_ <-]|[_ H]]; [done|].
  by rewrite lookup_empty in H.
Qed.

Lemma two_distinct : NoDup (handlers two).
Proof.
  change (handlers two) with [10; 11].
  apply NoDup_cons. split; [|apply NoDup_singleton].
  intros H. apply list_elem_of_singleton in H. discriminate.
Qed.

Lemma two_live : forall h, h ∈ handlers two -> is_Some (heap two !! h).
Proof.
  intros h H. change (handlers two) with [10; 11] in H.
  apply elem_of_cons in H as [->|H]; [by eexists|].
  apply list_elem_of_singleton in H as ->. by eexists.
Qed.

(** X1 at a concrete input: handler [10] of [two]. *)
Lemma retain_then_release_is_identity_witness :
  heap two !! 10 = Some (plain_handler 100 1)
  /\ _refCount (plain_handler 100 1) <> 0
  /\ exists s1, EventHandler_incref 10 two = Done s1
       /\ heap s1 !! 10
          = Some (with_refCount (_refCount (plain_handler 100 1) + 1) (plain_handler 100 1))
       /\ EventHandler_decref 10 s1 = Done two.
Proof.
  assert (H1 : heap two !! 10 = Some (plain_handler 100 1)) by reflexivity.
  assert (H2 : _refCount (plain_handler 100 1) <> 0) by discriminate.
  split; [exact H1|]. split; [exact H2|].
  exact (retain_then_release_is_identity 10 two (plain_handler 100 1) H1 H2).
Defined.

(** X2 at a concrete input: a callback body that requests a removal and a
    stop, registers a handler and emits an event. *)
Lemma client_calls_are_deferred_witness :
  let s' := outcome (exec tidy_up two) two in
  exec tidy_up two = Done s'
  /\ calls (trace s') = calls (trace two)
  /\ (exists added, handlers s' = handlers two ++ added)
  /\ (exists queued, events s' = events two ++ queued).
Proof.
  intros s'. assert (H : exec tidy_up two = Done s') by (vm_compute; reflexivity).
  split; [exact H|]. exact (client_calls_are_deferred tidy_up two s' H).
Defined.

Example tidy_up_run :
  let s' := outcome (exec tidy_up two) two in
  handlers s' = [10; 11; 11] /\ (type <$> events s') = [3; 4; 7].
Proof. vm_compute. by split. Qed.

Lemma busy_plain : Forall plain (events busy).
Proof. repeat constructor; discriminate. Qed.

(** X3 at a concrete input: two client events, two handlers. *)
Lemma drain_delivers_in_queue_order_witness :
  Forall plain (events busy)
  /\ Forall (tame (heap busy)) (handlers busy)
  /\ (length (events busy) + length (handlers busy) + 1 < 6)%nat
  /\ exists s', drain 6 true busy = Done (true, s')
       /\ events s' = [] /\ handlers s' = handlers busy /\ heap s' = heap busy
       /\ calls (trace s') = calls (trace busy) ++ deliveries (handlers busy) (events busy).
Proof.
  assert (H3 : (length (events busy) + length (handlers busy) + 1 < 6)%nat) by (cbn; lia).
  split; [exact busy_plain|]. split; [exact two_tame|]. split; [exact H3|].
  exact (drain_delivers_in_queue_order true busy 6 busy_plain two_tame H3).
Defined.

Example busy_drain :
  (fun c => (fst c, self (snd c))) <$> calls (trace (snd (outcome (drain 6 true busy) (true, busy))))
  = [(10, 16); (11, 16); (10, 17); (11, 17)].
Proof. vm_compute. reflexivity. Qed.

(** X4 at a concrete input: the run of the loop on [owner]. *)
Lemma loop_returns_only_after_a_break_request_witness :
  let s' := outcome (EventSystem_loop 8 owner) owner in
  EventSystem_loop 8 owner = Done s'
  /\ events s' = []
  /\ exists d e, freed (trace s') = freed (trace owner) ++ d
       /\ e ∈ d /\ type e = BreakLoopEventTypeId.
Proof.
  intros s'. assert (H : EventSystem_loop 8 owner = Done s') by (vm_compute; reflexivity).
  split; [exact H|]. exact (loop_returns_only_after_a_break_request 8 owner s' H).
Defined.

(** X5 at a concrete input: the loop over the two quiet handlers of [two],
    with nothing pending. *)
Lemma loop_runs_until_stopped_witness :
  public_tags_ok
  /\ Forall plain (events two)
  /\ Forall (tame (heap two)) (handlers two)
  /\ EventSystem_loop 40 two = OutOfFuel.
Proof.
  assert (H1 : Forall plain (events two)) by constructor.
  split; [exact demo_tags|]. split; [exact H1|]. split; [exact two_tame|].
  exact (loop_runs_until_stopped two 40 demo_tags H1 two_tame).
Defined.

(** X6 at a concrete input: cleanup of [owner], which has two events
    pending. *)
Lemma cleanup_destroys_pending_events_undispatched_witness :
  let s' := outcome (EventSystem_cleanup owner) owner in
  EventSystem_cleanup owner = Done s'
  /\ freed (trace s') = freed (trace owner) ++ events owner
  /\ destructed (trace s')
     = destructed (trace owner) ++ filter (fun e => owns_payload e) (events owner)
  /\ calls (trace s') = calls (trace owner)
  /\ created (trace s') = created (trace owner)
  /\ events s' = [] /\ handlers s' = [].
Proof.
  intros s'. assert (H : EventSystem_cleanup owner = Done s') by (vm_compute; reflexivity).
  split; [exact H|]. exact (cleanup_destroys_pending_events_undispatched owner s' H).
Defined.

(** X7 at a concrete input: cleanup of [two]. *)
Lemma cleanup_releases_each_handler_once_witness :
  NoDup (handlers two)
  /\ (forall h, h ∈ handlers two -> is_Some (heap two !! h))
  /\ exists s', EventSystem_cleanup two = Done s'
       /\ (forall h r, h ∈ handlers two -> heap two !! h = Some r ->
             heap s' !! h = released r)
       /\ (forall h, h ∉ handlers two -> heap s' !! h = heap two !! h).
Proof.
  split; [exact two_distinct|]. split; [exact two_live|].
  exact (cleanup_releases_each_handler_once two two_distinct two_live).
Defined.

(** X8 at a concrete input. *)
Lemma reference_counts_stay_positive_witness :
  counts_positive (heap two)
  /\ (forall p s', exec p two = Done s' -> counts_positive (heap s'))
  /\ (forall fuel s', EventSystem_loop fuel two = Done s' -> counts_positive (heap s'))
  /\ (forall s', EventSystem_cleanup two = Done s' -> counts_positive (heap s')).
Proof.
  split; [exact two_counts|]. exact (reference_counts_stay_positive two two_counts).
Defined.


(** X10 at a concrete input: handler [10] alone, in a world where every
    callback removes its own handler and stops the loop. *)
Lemma self_removal_on_every_event_releases_twice_witness :
  @public_tags_ok selfish_world
  /\ 10 <> NULL /\ handler (plain_handler 100 1) <> NULL
  /\ @removes_itself_and_stops selfish_world (handler (plain_handler 100 1))
  /\ _refCount (plain_handler 100 1) = 1
  /\ heap loner !! 10 = Some (plain_handler 100 1)
  /\ handlers loner = [10] /\ events loner = []
  /\ @EventSystem_loop selfish_world (5 + 0) loner = Fault BadPointer.
Proof.
  assert (H1 : @public_tags_ok selfish_world) by (by repeat split).
  assert (H2 : 10 <> NULL) by discriminate.
  assert (H3 : handler (plain_handler 100 1) <> NULL) by discriminate.
  assert (H4 : @removes_itself_and_stops selfish_world (handler (plain_handler 100 1))).
  { intros p e ms u. by exists (S u). }
  assert (H6 : heap loner !! 10 = Some (plain_handler 100 1)) by reflexivity.
  split; [exact H1|]. split; [exact H2|]. split; [exact H3|]. split; [exact H4|].
  split; [reflexivity|]. split; [exact H6|]. split; [reflexivity|]. split; [reflexivity|].
  exact (@self_removal_on_every_event_releases_twice selfish_world 10
           (plain_handler 100 1) loner 0 H1 H2 H3 H4 eq_refl H6 eq_refl eq_refl).
Defined.

Example loner_run :
  @EventSystem_loop selfish_world 5 loner = Fault BadPointer.
Proof. vm_compute. reflexivity. Qed.

(** X11 at a concrete input: the drain of [owner], during which the
    [Exit] event is built. *)
Lemma drain_dispatches_pending_then_new_events_witness :
  let s' := snd (outcome (drain 8 true owner) (true, owner)) in
  ledger [] owner
  /\ drain 8 true owner = Done (false, s')
  /\ events s' = []
  /\ exists new, created (trace s') = created (trace owner) ++ new
       /\ freed (trace s') = freed (trace owner) ++ events owner ++ new.
Proof.
  intros s'. assert (H : drain 8 true owner = Done (false, s')) by (vm_compute; reflexivity).
  split; [exact owner_ledger|]. split; [exact H|].
  exact (drain_dispatches_pending_then_new_events 8 true false owner s' owner_ledger H).
Defined.

Example owner_drain :
  (fun e => (self e, type e))
    <$> freed (trace (snd (outcome (drain 8 true owner) (true, owner))))
  = [(16, 7); (17, 4); (18, 2)].
Proof. vm_compute. reflexivity. Qed.

(** X12 at a concrete input: handler [11] is registered after a [NULL]
    entry. *)
Lemma null_entry_ends_the_broadcast_witness :
  let s' := outcome (broadcast 3 EventSystem_getHandlers ping gap) gap in
  handlers gap = [10] ++ NULL :: [11]
  /\ (0 ∉ [10])
  /\ broadcast 3 EventSystem_getHandlers ping gap = Done s'
  /\ calls (trace s') = calls (trace gap) ++ ((fun h => (h, ping)) <$> [10]).
Proof.
  intros s'.
  assert (H1 : handlers gap = [10] ++ NULL :: [11]) by reflexivity.
  assert (H2 : 0 ∉ [10]).
  { intros H. apply list_elem_of_singleton in H. discriminate. }
  assert (H3 : broadcast 3 EventSystem_getHandlers ping gap = Done s')
    by (vm_compute; reflexivity).
  split; [exact H1|]. split; [exact H2|]. split; [exact H3|].
  exact (null_entry_ends_the_broadcast 3 ping gap s' [10] [11] H1 H2 H3).
Defined.

(** X13 at a concrete input: the run of the loop on [owner]. *)
Lemma loop_dispatches_pending_then_start_then_update_witness :
  let s' := outcome (EventSystem_loop 8 owner) owner in
  ledger [] owner
  /\ EventSystem_loop 8 owner = Done s'
  /\ exists later,
       created (trace s')
       = created (trace owner)
           ++ start_event (brk owner) :: update_event (brk owner + 1) :: later
       /\ freed (trace s')
          = freed (trace owner) ++ events owner
              ++ start_event (brk owner) :: update_event (brk owner + 1) :: later.
Proof.
  intros s'. assert (H : EventSystem_loop 8 owner = Done s') by (vm_compute; reflexivity).
  split; [exact owner_ledger|]. split; [exact H|].
  exact (loop_dispatches_pending_then_start_then_update 8 owner s' owner_ledger H).
Defined.

Example owner_run_order :
  (fun e => (self e, type e)) <$> freed (trace (outcome (EventSystem_loop 8 owner) owner))
  = [(16, 7); (17, 4); (18, 0); (19, 1); (20, 2)].
Proof. vm_compute. reflexivity. Qed.
